(** * interactive_converter.py: annotation store, quality filter, file
    matcher, parsers, cropper expansion and polygon rasteriser line parser.

    Shallow embedding of the parts of [src/interactive_converter.py] that
    the specification talks about.  Python [int]s are [Z]; Python floats
    are Rocq's primitive binary64 floats; the [AnnotationConverter]
    instance is a record threaded through explicit state passing; Python
    dicts are stdpp [gmap]s. *)

From Stdlib Require Import ZArith List String Ascii Bool Lia.
From Stdlib Require Import Floats.
From stdpp Require Import base gmap sets list strings pretty.

Import ListNotations.
Open Scope Z_scope.
Set Warnings "-register-all".

(** ** Data model *)

(** [{'file_name', 'id', 'width', 'height'}] *)
Record image := mkImage {
  img_file_name : string;
  img_id : Z;
  img_width : Z;
  img_height : Z
}.

(** [bbox = [x, y, w, h]] *)
Record bbox := mkBBox { bb_x : Z; bb_y : Z; bb_w : Z; bb_h : Z }.

(** [{'id', 'image_id', 'category_id', 'bbox', 'area'}] *)
Record annotation := mkAnn {
  ann_id : Z;
  ann_image_id : Z;
  ann_category_id : Z;
  ann_bbox : bbox;
  ann_area : Z
}.

(** [{'id', 'name'}] *)
Record category := mkCat { cat_id : Z; cat_name : string }.

(** The fields of an [AnnotationConverter] ([img2id] is never written by
    the code and is left out). *)
Record store := mkStore {
  categories : list category;
  images : list image;
  annotations : list annotation;
  cat2id : gmap string Z;
  img_count : Z;
  cat_count : Z;
  ann_count : Z
}.

(** [reset] / [__init__] *)
Definition reset : store := mkStore [] [] [] ∅ 0 0 0.

Definition set_img_id (n : Z) (i : image) : image :=
  mkImage (img_file_name i) n (img_width i) (img_height i).

Definition set_ann_ids (n iid : Z) (a : annotation) : annotation :=
  mkAnn n iid (ann_category_id a) (ann_bbox a) (ann_area a).

Definition set_images (st : store) (l : list image) : store :=
  mkStore (categories st) l (annotations st) (cat2id st)
          (img_count st) (cat_count st) (ann_count st).

Definition set_images_annotations (st : store) (li : list image)
    (la : list annotation) : store :=
  mkStore (categories st) li la (cat2id st)
          (img_count st) (cat_count st) (ann_count st).

(** ** QualityFilter: [_check_and_filter_small_boxes] and [_remove_small_boxes] *)

(** [area = bbox[2] * bbox[3]] *)
Definition bbox_area (a : annotation) : Z := bb_w (ann_bbox a) * bb_h (ann_bbox a).

(** The dictionaries collected into [small_boxes]. *)
Record small_box := mkSmall {
  sb_id : Z;
  sb_image_id : Z;
  sb_category_id : Z;
  sb_area : Z;
  sb_bbox : bbox
}.

Definition collect_small_boxes (area_threshold : Z) (anns : list annotation)
    : list small_box :=
  fold_left (fun acc ann =>
    let area := bbox_area ann in
    if area <? area_threshold
    then acc ++ [mkSmall (ann_id ann) (ann_image_id ann) (ann_category_id ann)
                         area (ann_bbox ann)]
    else acc) anns [].

(** [image_ann_count[ann['image_id']] += 1] on a [defaultdict(int)]. *)
Definition count_step (cnt : gmap Z nat) (a : annotation) : gmap Z nat :=
  match cnt !! ann_image_id a with
  | Some c => <[ann_image_id a := S c]> cnt
  | None => <[ann_image_id a := 1%nat]> cnt
  end.

(** One iteration of [for img in self.images]: keep and renumber, or drop. *)
Definition image_step (cnt : gmap Z nat) (acc : list image * gmap Z Z)
    (img : image) : list image * gmap Z Z :=
  let '(valid_images, image_id_map) := acc in
  if bool_decide (is_Some (cnt !! img_id img)) then
    let new_id := Z.of_nat (length valid_images) + 1 in
    (valid_images ++ [set_img_id new_id img], <[img_id img := new_id]> image_id_map)
  else (valid_images, image_id_map).

(** One iteration of [for ann in valid_annotations]. *)
Definition ann_step (image_id_map : gmap Z Z) (acc : list annotation)
    (ann : annotation) : list annotation :=
  match image_id_map !! ann_image_id ann with
  | Some nid => acc ++ [set_ann_ids (Z.of_nat (length acc) + 1) nid ann]
  | None => acc
  end.

Definition valid_annotations (small_boxes : list small_box)
    (anns : list annotation) : list annotation :=
  let remove_ann_ids : gset Z := list_to_set (map sb_id small_boxes) in
  filter (fun ann => ann_id ann ∉ remove_ann_ids) anns.

Definition image_ann_count (valid : list annotation) : gmap Z nat :=
  fold_left count_step valid ∅.

Definition image_pass (st : store) (small_boxes : list small_box)
    : list image * gmap Z Z :=
  fold_left (image_step (image_ann_count (valid_annotations small_boxes (annotations st))))
            (images st) ([], ∅).

(** The old→new [image_id_map] built by [_remove_small_boxes]. *)
Definition image_id_map (st : store) (small_boxes : list small_box) : gmap Z Z :=
  (image_pass st small_boxes).2.

Definition remove_small_boxes (st : store) (small_boxes : list small_box)
    (area_threshold : Z) : store :=
  let valid := valid_annotations small_boxes (annotations st) in
  let '(valid_images, m) := image_pass st small_boxes in
  let updated := fold_left (ann_step m) valid [] in
  set_images_annotations st valid_images updated.

Definition check_and_filter_small_boxes (st : store) (area_threshold : Z) : store :=
  match annotations st with
  | [] => st
  | _ =>
    match collect_small_boxes area_threshold (annotations st) with
    | [] => st
    | small_boxes => remove_small_boxes st small_boxes area_threshold
    end
  end.

(** ** AnnotationStore: the building steps of [convert_to_coco] *)

(** The block every one of the five parsers runs for an accepted box:
    "ensure the category exists", then append the annotation.  The lookup
    of [self.cat2id[category_name]] cannot fail after the block; [default]
    is only there to make it total. *)
Definition record_annotation (cur_img_id : Z) (st : store) (nb : string * bbox)
    : store :=
  let '(category_name, b) := nb in
  let st1 :=
    match cat2id st !! category_name with
    | Some _ => st
    | None =>
      mkStore (categories st ++ [mkCat (cat_count st) category_name])
              (images st) (annotations st)
              (<[category_name := cat_count st]> (cat2id st))
              (img_count st) (cat_count st + 1) (ann_count st)
    end in
  let cid := default 0 (cat2id st1 !! category_name) in
  mkStore (categories st1) (images st1)
          (annotations st1 ++
             [mkAnn (ann_count st1) cur_img_id cid b (bb_w b * bb_h b)])
          (cat2id st1) (img_count st1) (cat_count st1) (ann_count st1 + 1).

(** [self.images.append({...}); self.img_count += 1] *)
Definition append_image (st : store) (file_name : string) (w h : Z) : store :=
  mkStore (categories st) (images st ++ [mkImage file_name (img_count st) w h])
          (annotations st) (cat2id st) (img_count st + 1) (cat_count st) (ann_count st).

(** [_process_file_pair].  [opened] is the result of [Image.open]: [None]
    when it raises (nothing has been changed yet).  [boxes] is the sequence
    of (category name, bbox) the format parser records, in order, before it
    returns or raises: whichever of the five parsers runs, each accepted
    entry goes through [record_annotation] with [current_img_id]. *)
Definition process_file_pair (st : store) (opened : option (string * Z * Z))
    (boxes : list (string * bbox)) : store :=
  match opened with
  | None => st
  | Some (img_file, img_w, img_h) =>
    let current_img_id := img_count st in
    fold_left (record_annotation current_img_id) boxes
              (append_image st img_file img_w img_h)
  end.

(** One iteration of the [include_unmatched_images] loop. *)
Definition add_unmatched_image (st : store) (opened : option (string * Z * Z))
    : store :=
  match opened with
  | None => st
  | Some (img_file, img_w, img_h) => append_image st img_file img_w img_h
  end.

Definition pair_names (opened : option (string * Z * Z))
    (boxes : list (string * bbox)) : list string :=
  match opened with None => [] | Some _ => map fst boxes end.

(** The stores the conversion pathway goes through, from [reset], with the
    sequence of category names recorded so far. *)
Inductive conversion_stage : store -> list string -> Prop :=
| stage_reset : conversion_stage reset []
| stage_pair st hist opened boxes :
    conversion_stage st hist ->
    conversion_stage (process_file_pair st opened boxes) (hist ++ pair_names opened boxes)
| stage_unmatched st hist opened :
    conversion_stage st hist ->
    conversion_stage (add_unmatched_image st opened) hist
| stage_filter st hist area_threshold :
    conversion_stage st hist ->
    conversion_stage (check_and_filter_small_boxes st area_threshold) hist.

(** Invariant I1: every annotation's [image_id] is the id of a stored image. *)
Definition image_refs_ok (st : store) : Prop :=
  Forall (fun a => ann_image_id a ∈ map img_id (images st)) (annotations st).

(** Names in order of first occurrence. *)
Fixpoint first_sight_aux (seen : list string) (l : list string) : list string :=
  match l with
  | [] => []
  | n :: l' =>
    if bool_decide (n ∈ seen) then first_sight_aux seen l'
    else n :: first_sight_aux (seen ++ [n]) l'
  end.

Definition first_sight (l : list string) : list string := first_sight_aux [] l.

Definition zseq (s : Z) (n : nat) : list Z := map (fun k => s + Z.of_nat k) (seq 0 n).

(** Invariant I2 on the categories, with the names recorded so far. *)
Definition categories_ok (st : store) (hist : list string) : Prop :=
  map cat_name (categories st) = first_sight hist /\
  map cat_id (categories st) = zseq 0 (length (categories st)) /\
  cat_count st = Z.of_nat (length (categories st)) /\
  (forall name i, cat2id st !! name = Some i <-> mkCat i name ∈ categories st).

(** ** hk format: [_get_deepest_category_name] *)

(** A node of the hk [list]: [item.get('tagName')] and
    [item.get('children', [])]. *)
Inductive hk_node := HkNode (tagName : option string) (children : list hk_node).

Fixpoint find_deepest_tag (item : hk_node) : string :=
  match item with
  | HkNode tagName children =>
    match children with
    | [] => default "" tagName
    | _ =>
      let deepest_tags :=
        List.filter (fun tag => negb (String.eqb tag "")) (map find_deepest_tag children) in
      match deepest_tags with
      | tag :: _ => tag
      | [] => default "" tagName
      end
    end
  end.

(** The rule in the words of the specification: descend depth first, the
    first child branch first, moving to the next branch only when a branch
    yields no tag, and fall back to the node's own [tagName]. *)
Fixpoint deepest_tag_spec (item : hk_node) : string :=
  match item with
  | HkNode tagName children =>
    (fix branches (cs : list hk_node) : string :=
       match cs with
       | [] => default "" tagName
       | c :: cs' =>
         let t := deepest_tag_spec c in
         if String.eqb t "" then branches cs' else t
       end) children
  end.

(** ** Python string helpers

    A Rocq [string] stands for a Python [str] whose characters are below
    U+0100, one [ascii] (8 bits) per character. *)

(** [str.lower] on one character: the capitals A to Z and U+00C0 to U+00DE
    except U+00D7 move up by 32; no other character below U+0100 has a
    lower case. *)
Definition ascii_lower (c : ascii) : ascii :=
  let n := nat_of_ascii c in
  if (65 <=? n)%nat && (n <=? 90)%nat
     || (192 <=? n)%nat && (n <=? 222)%nat && negb (n =? 215)%nat
  then ascii_of_nat (n + 32) else c.

(** [str.lower] *)
Fixpoint lower (s : string) : string :=
  match s with
  | EmptyString => EmptyString
  | String c s' => String (ascii_lower c) (lower s')
  end.

(** [str.endswith] *)
Definition endswith (s suffix : string) : bool :=
  (String.length suffix <=? String.length s)%nat &&
  String.eqb (substring (String.length s - String.length suffix)
                        (String.length suffix) s) suffix.

Fixpoint rfind_aux (c : ascii) (s : string) (i best : Z) : Z :=
  match s with
  | EmptyString => best
  | String d s' => rfind_aux c s' (i + 1) (if Ascii.eqb c d then i else best)
  end.

(** [str.rfind] for one character: the last index, or [-1]. *)
Definition rfind (c : ascii) (s : string) : Z := rfind_aux c s 0 (-1).

(** [p[i]] *)
Definition char_at (p : string) (i : Z) : ascii :=
  match String.get (Z.to_nat i) p with Some c => c | None => " "%char end.

(** [posixpath.splitext] ([genericpath._splitext] with [sep='/'] and
    [extsep='.']): the dot must come after the last separator, and leading
    dots of the file name are not an extension. *)
Definition splitext (p : string) : string * string :=
  let sepIndex := rfind "/"%char p in
  let dotIndex := rfind "."%char p in
  if sepIndex <? dotIndex then
    let filenameIndex := sepIndex + 1 in
    let between := map (fun k => filenameIndex + Z.of_nat k)
                       (seq 0 (Z.to_nat (dotIndex - filenameIndex))) in
    if existsb (fun i => negb (Ascii.eqb (char_at p i) "."%char)) between
    then (substring 0 (Z.to_nat dotIndex) p,
          substring (Z.to_nat dotIndex) (String.length p - Z.to_nat dotIndex) p)
    else (p, "")
  else (p, "").

(** [posixpath.basename] *)
Definition basename (p : string) : string :=
  let i := Z.to_nat (rfind "/"%char p + 1) in
  substring i (String.length p - i) p.

(** [x in lst] on a list of strings *)
Definition mem (x : string) (l : list string) : bool := existsb (String.eqb x) l.

(** [lst.remove(x)]: [None] is the [ValueError] of a missing element. *)
Fixpoint remove_first (x : string) (l : list string) : option (list string) :=
  match l with
  | [] => None
  | y :: l' =>
    if String.eqb x y then Some l'
    else match remove_first x l' with Some r => Some (y :: r) | None => None end
  end.

(** ** FileMatcher: [match_files] *)

Inductive format := Yolo | Voc | CocoSingle | Labelme | Hk.

Definition image_exts : list string := [".jpg"; ".jpeg"; ".png"; ".bmp"].

(** What [match_files] reads from a JSON annotation file:
    [data['image']['file_name']] when both keys are present (coco_single),
    [data.get('imagePath', '')] (labelme) and [data.get('imgName', '')] (hk). *)
Record ann_json := mkAnnJson {
  js_image_file_name : option string;
  js_imagePath : string;
  js_imgName : string
}.

Definition image_files_of (listing : list string) : list string :=
  List.filter (fun f => existsb (endswith (lower f)) image_exts) listing.

Definition annotation_files_of (fmt : format) (listing : list string) : list string :=
  match fmt with
  | Yolo => List.filter (fun f => endswith f ".txt" && negb (String.eqb f "classes.txt")) listing
  | Voc => List.filter (fun f => endswith f ".xml") listing
  | CocoSingle | Labelme | Hk => List.filter (fun f => endswith f ".json") listing
  end.

(** [for ext in [...]: if base_name + ext in image_files: ...; break] *)
Definition first_ext_match (image_files : list string) (base_name : string)
    : option string :=
  find (fun n => mem n image_files) (map (fun ext => base_name ++ ext)%string image_exts).

(** [for img_file in image_files: if splitext(img_file)[0].lower() == base_name.lower(): ...; break] *)
Definition find_by_base (image_files : list string) (base_name : string)
    : option string :=
  find (fun f => String.eqb (lower (splitext f).1) (lower base_name)) image_files.

(** Name lookup of the labelme and hk branches from [imagePath]/[imgName]. *)
Definition resolve_by_path (image_files : list string) (ann_file path : string)
    : option string :=
  let from_path :=
    if String.eqb path "" then None
    else
      let img_filename := basename path in
      if mem img_filename image_files then Some img_filename
      else find_by_base image_files (splitext img_filename).1 in
  match from_path with
  | Some n => if String.eqb n "" then find_by_base image_files (splitext ann_file).1
              else Some n
  | None => find_by_base image_files (splitext ann_file).1
  end.

Definition resolve_json (fmt : format) (image_files : list string) (ann_file : string)
    (data : ann_json) : option string :=
  match fmt with
  | CocoSingle =>
    match js_image_file_name data with
    | Some n => Some n
    | None => first_ext_match image_files (splitext ann_file).1
    end
  | Labelme => resolve_by_path image_files ann_file (js_imagePath data)
  | Hk => resolve_by_path image_files ann_file (js_imgName data)
  | Yolo | Voc => None
  end.

Definition match_state : Type := list (string * string) * list string * list string.

(** One iteration of [for ann_file in annotation_files].  [None] is an
    exception leaving [match_files]. *)
Definition match_step (fmt : format) (read : string -> option ann_json)
    (image_files : list string) (acc : match_state) (ann_file : string)
    : option match_state :=
  let '(matched_pairs, unmatched_annotations, unmatched_images) := acc in
  match fmt with
  | Yolo | Voc =>
    match first_ext_match image_files (splitext ann_file).1 with
    | Some matched_img =>
      match remove_first matched_img unmatched_images with
      | Some ui => Some (matched_pairs ++ [(ann_file, matched_img)], unmatched_annotations, ui)
      | None => None
      end
    | None => Some (matched_pairs, unmatched_annotations ++ [ann_file], unmatched_images)
    end
  | CocoSingle | Labelme | Hk =>
    (* the whole branch is inside [try: ... except: unmatched_annotations.append] *)
    match read ann_file with
    | None => Some (matched_pairs, unmatched_annotations ++ [ann_file], unmatched_images)
    | Some data =>
      match resolve_json fmt image_files ann_file data with
      | Some img_name =>
        if negb (String.eqb img_name "") && mem img_name image_files then
          let mp := matched_pairs ++ [(ann_file, img_name)] in
          match remove_first img_name unmatched_images with
          | Some ui => Some (mp, unmatched_annotations, ui)
          | None => Some (mp, unmatched_annotations ++ [ann_file], unmatched_images)
          end
        else Some (matched_pairs, unmatched_annotations ++ [ann_file], unmatched_images)
      | None => Some (matched_pairs, unmatched_annotations ++ [ann_file], unmatched_images)
      end
    end
  end.

Fixpoint match_loop (fmt : format) (read : string -> option ann_json)
    (image_files : list string) (acc : match_state) (l : list string)
    : option match_state :=
  match l with
  | [] => Some acc
  | f :: l' =>
    match match_step fmt read image_files acc f with
    | Some acc' => match_loop fmt read image_files acc' l'
    | None => None
    end
  end.

(** [match_files(annotation_path, image_path, format_type)]: the two
    directory listings and the JSON reader stand for the file system. *)
Definition match_files (annotation_listing image_listing : list string)
    (fmt : format) (read : string -> option ann_json) : option match_state :=
  let image_files := image_files_of image_listing in
  let annotation_files := annotation_files_of fmt annotation_listing in
  match_loop fmt read image_files ([], [], image_files) annotation_files.

(** ** Python numbers: [int(str)], [float(str)], [int(float)], [round(float)] *)

(** The exceptions the numeric conversions raise. *)
Inductive py_exc := ValueError | OverflowError | IndexError.

(** [float(n)] for an [int] [n]: [n] rounded to 53 bits, to nearest with
    ties to even ([binary_normalize], the rounding [of_uint63] is specified
    with); past the largest double the rounding gives an infinity. *)
Definition float_of_Z_sf (z : Z) : SpecFloat.spec_float :=
  SpecFloat.binary_normalize 53 1024 z 0 false.

Definition float_of_Z (z : Z) : float := SF2Prim (float_of_Z_sf z).

(** An [int] operand of a float operation ([n * f], [f + n], [n - f]):
    converted as [float(n)], raising [OverflowError] when [n] rounds past
    the largest double. *)
Definition py_float_of_int (z : Z) : float + py_exc :=
  match float_of_Z_sf z with
  | SpecFloat.S754_infinity _ => inr OverflowError
  | _ => inl (float_of_Z z)
  end.

(** [int(f)]: truncation toward zero; [nan] raises [ValueError] and the
    infinities [OverflowError]. *)
Definition int_of_float (f : float) : Z + py_exc :=
  match Prim2SF f with
  | SpecFloat.S754_zero _ => inl 0
  | SpecFloat.S754_finite s m e =>
    let v := if e >=? 0 then Z.pos m * 2 ^ e else Z.pos m / 2 ^ (- e) in
    inl (if s then - v else v)
  | SpecFloat.S754_infinity _ => inr OverflowError
  | SpecFloat.S754_nan => inr ValueError
  end.

(** [round(f)] with no digits: the nearest integer, ties to even. *)
Definition py_round (f : float) : Z + py_exc :=
  match Prim2SF f with
  | SpecFloat.S754_zero _ => inl 0
  | SpecFloat.S754_finite s m e =>
    let v :=
      if e >=? 0 then Z.pos m * 2 ^ e
      else
        let d := 2 ^ (- e) in
        let q := Z.pos m / d in
        let r := Z.pos m mod d in
        if 2 * r <? d then q
        else if d <? 2 * r then q + 1
        else if Z.even q then q else q + 1 in
    inl (if s then - v else v)
  | SpecFloat.S754_infinity _ => inr OverflowError
  | SpecFloat.S754_nan => inr ValueError
  end.

Definition digit_of (c : ascii) : option Z :=
  let n := nat_of_ascii c in
  if (48 <=? n)%nat && (n <=? 57)%nat then Some (Z.of_nat n - 48) else None.

(** Digits to a value and a digit count. *)
Fixpoint digits_value (s : string) (acc : Z) (k : nat) : option (Z * nat) :=
  match s with
  | EmptyString => Some (acc, k)
  | String c s' =>
    match digit_of c with
    | Some d => digits_value s' (10 * acc + d) (S k)
    | None => None
    end
  end.

Definition split_sign (s : string) : bool * string :=
  match s with
  | String "-"%char s' => (true, s')
  | String "+"%char s' => (false, s')
  | _ => (false, s)
  end.

(** A decimal [int(str)] on a whitespace-free token: an optional sign and
    at least one digit. *)
Definition dec_int (s : string) : option Z :=
  let '(neg, body) := split_sign s in
  match digits_value body 0 0 with
  | Some (v, S _) => Some (if neg then - v else v)
  | _ => None
  end.

Fixpoint split_at_dot (s : string) : string * option string :=
  match s with
  | EmptyString => (EmptyString, None)
  | String "."%char s' => (EmptyString, Some s')
  | String c s' => let '(a, b) := split_at_dot s' in (String c a, b)
  end.

(** A decimal [float(str)] on a whitespace-free token, [[+-]digits[.digits]]
    with at least one digit: the value [n / 10^k] is one correctly rounded
    division, which is Python's correctly rounded reading whenever [n] and
    [10^k] are exact doubles (at most 15 digits). *)
Definition dec_float (s : string) : option float :=
  let '(neg, body) := split_sign s in
  let '(ip, fp) := split_at_dot body in
  match digits_value ip 0 0, digits_value (default "" fp) 0 0 with
  | Some (a, ka), Some (b, kb) =>
    if (ka + kb =? 0)%nat then None
    else
      let n := a * 10 ^ Z.of_nat kb + b in
      let v := PrimFloat.div (float_of_Z n) (float_of_Z (10 ^ Z.of_nat kb)) in
      Some (if neg then PrimFloat.opp v else v)
  | _, _ => None
  end.

(** [str.isspace] on one character, the whitespace [str.split()] and
    [str.strip()] use: below U+0100 these are [\t \n \v \f \r], the
    separators U+001C to U+001F, the space, U+0085 and U+00A0. *)
Definition is_space (c : ascii) : bool :=
  match nat_of_ascii c with
  | 9 | 10 | 11 | 12 | 13 | 28 | 29 | 30 | 31 | 32 | 133 | 160 => true
  | _ => false
  end%nat.

Fixpoint py_split_aux (s : string) (cur : list ascii) : list string :=
  match s with
  | EmptyString =>
    match cur with [] => [] | _ => [string_of_list_ascii (rev cur)] end
  | String c s' =>
    if is_space c then
      match cur with
      | [] => py_split_aux s' []
      | _ => string_of_list_ascii (rev cur) :: py_split_aux s' []
      end
    else py_split_aux s' (c :: cur)
  end.

Definition py_split (s : string) : list string := py_split_aux s [].

(** ** YOLO parser: [_process_yolo_file] *)

Section Parsers.

(** The readings of [int(token)] and [float(token)]; [None] is the
    [ValueError] of an unparsable token. *)
Variable int_of_string : string -> option Z.
Variable float_of_string : string -> option float.

Inductive line_outcome :=
| LSkip                          (* [continue] *)
| LRecord (name : string) (b : bbox)
| LRaise (e : py_exc).           (* leaves [_process_yolo_file] *)

(** The [except ValueError: continue] around the conversions. *)
Definition catch_value_error {A} (r : A + py_exc) (k : A -> line_outcome) : line_outcome :=
  match r with
  | inl a => k a
  | inr ValueError => LSkip
  | inr e => LRaise e
  end.

Definition yolo_line (class_mapping : gmap Z string) (img_w img_h : Z)
    (line : string) : line_outcome :=
  match py_split line with
  | [p0; p1; p2; p3; p4] =>
    match int_of_string p0, float_of_string p1, float_of_string p2,
          float_of_string p3, float_of_string p4 with
    | Some class_id, Some x_center, Some y_center, Some w, Some h =>
      let x_center := PrimFloat.mul x_center (float_of_Z img_w) in
      let y_center := PrimFloat.mul y_center (float_of_Z img_h) in
      let w := PrimFloat.mul w (float_of_Z img_w) in
      let h := PrimFloat.mul h (float_of_Z img_h) in
      catch_value_error (int_of_float (PrimFloat.sub x_center (PrimFloat.div w 2%float))) (fun x =>
      catch_value_error (int_of_float (PrimFloat.sub y_center (PrimFloat.div h 2%float))) (fun y =>
      catch_value_error (int_of_float w) (fun w =>
      catch_value_error (int_of_float h) (fun h =>
      let category_name :=
        match class_mapping !! class_id with
        | Some n => n
        | None => ("class_" ++ pretty class_id)%string
        end in
      LRecord category_name (mkBBox x y w h)))))
    | _, _, _, _, _ => LSkip
    end
  | _ => LSkip
  end.

(** The loop over the lines of the file; an exception other than
    [ValueError] ends it, with the store as far as it got. *)
Fixpoint process_yolo_file (class_mapping : gmap Z string) (img_id img_w img_h : Z)
    (st : store) (lines : list string) : store :=
  match lines with
  | [] => st
  | line :: rest =>
    match yolo_line class_mapping img_w img_h line with
    | LSkip => process_yolo_file class_mapping img_id img_w img_h st rest
    | LRecord n b =>
      process_yolo_file class_mapping img_id img_w img_h
                        (record_annotation img_id st (n, b)) rest
    | LRaise _ => st
    end
  end.

(** ** PolygonRasterizer: [_parse_polygon_line] and the line loop of
    [_txt_to_mask] *)

Inductive poly_outcome :=
| PolyNone                                  (* [return None, None] *)
| PolyOk (cls : Z) (pts : list (Z * Z))
| PolyRaise (e : py_exc).

(** [min(max(v, 0), dim - 1)] *)
Definition clamp_dim (v dim : Z) : Z := Z.min (Z.max v 0) (dim - 1).

(** [for i in range(0, len(coords), 2)]: round, then clamp. *)
Fixpoint pixel_points (width height : Z) (coords : list float)
    : list (Z * Z) + py_exc :=
  match coords with
  | [] => inl []
  | [_] => inr IndexError
  | cx :: cy :: rest =>
    match py_round (PrimFloat.mul cx (float_of_Z width)) with
    | inr e => inr e
    | inl x =>
      match py_round (PrimFloat.mul cy (float_of_Z height)) with
      | inr e => inr e
      | inl y =>
        match pixel_points width height rest with
        | inr e => inr e
        | inl pts => inl ((clamp_dim x width, clamp_dim y height) :: pts)
        end
      end
    end
  end.

Fixpoint parse_all (l : list string) : option (list float) :=
  match l with
  | [] => Some []
  | t :: l' =>
    match float_of_string t, parse_all l' with
    | Some f, Some fs => Some (f :: fs)
    | _, _ => None
    end
  end.

Definition parse_polygon_line (line : string) (width height : Z) : poly_outcome :=
  let parts := py_split line in
  if (length parts <? 7)%nat || Nat.even (length parts) then PolyNone
  else
    match parts with
    | [] => PolyNone
    | p0 :: rest =>
      match int_of_string p0, parse_all rest with
      | Some cls, Some coords =>
        match pixel_points width height coords with
        | inr e => PolyRaise e
        | inl pts => if (length pts <? 3)%nat then PolyNone else PolyOk cls pts
        end
      | _, _ => PolyNone
      end
    end.

Inductive mask_action :=
| MaskSkip                                  (* [continue] *)
| MaskDraw (gray : Z) (pts : list (Z * Z))  (* [draw.polygon(..., fill=gray)] *)
| MaskFail.                                 (* the file's [except]: [return False] *)

Definition mask_line (max_cls width height : Z) (line : string) : mask_action :=
  match parse_polygon_line line width height with
  | PolyNone => MaskSkip
  | PolyRaise _ => MaskFail
  | PolyOk cls pts =>
    if (cls <? 0) || (max_cls <? cls) then MaskSkip else MaskDraw (cls + 1) pts
  end.

(** The polygons [_txt_to_mask] paints, in file order; [None] when the
    file fails. *)
Fixpoint txt_to_mask_polygons (max_cls width height : Z) (lines : list string)
    : option (list (Z * list (Z * Z))) :=
  match lines with
  | [] => Some []
  | line :: rest =>
    match mask_line max_cls width height line with
    | MaskSkip => txt_to_mask_polygons max_cls width height rest
    | MaskFail => None
    | MaskDraw g pts =>
      match txt_to_mask_polygons max_cls width height rest with
      | Some ps => Some ((g, pts) :: ps)
      | None => None
      end
    end
  end.


End Parsers.

(** ** ImageCropper: [_apply_expansion_and_bounds] (the warning print left out) *)

(** A number of a cropper box: the coco_single, voc, yolo and labelme
    parsers give [int]s; the hk parser passes the JSON numbers of
    [tagInfo] through, [int] or [float] (a [bool], an [int] subclass, is
    [PInt 0] or [PInt 1]). *)
Inductive pynum := PInt (z : Z) | PFloat (f : float).

(** [x, y, w, h = bbox] *)
Definition crop_box : Type := pynum * pynum * pynum * pynum.

(** Sequencing of steps that may raise. *)
Definition py_bind {A B} (r : A + py_exc) (k : A -> B + py_exc) : B + py_exc :=
  match r with
  | inl a => k a
  | inr e => inr e
  end.

Notation "'let!' x := r 'in' k" := (py_bind r (fun x => k))
  (at level 200, x name, r at level 100, k at level 200).

(** [a + b] and [a - b]: exact on two [int]s, otherwise a float operation
    after converting an [int] operand. *)
Definition py_arith (fop : float -> float -> float) (zop : Z -> Z -> Z) (a b : pynum)
    : pynum + py_exc :=
  match a, b with
  | PInt x, PInt y => inl (PInt (zop x y))
  | PFloat f, PFloat g => inl (PFloat (fop f g))
  | PFloat f, PInt y => let! g := py_float_of_int y in inl (PFloat (fop f g))
  | PInt x, PFloat g => let! f := py_float_of_int x in inl (PFloat (fop f g))
  end.

Definition py_add : pynum -> pynum -> pynum + py_exc := py_arith PrimFloat.add Z.add.
Definition py_sub : pynum -> pynum -> pynum + py_exc := py_arith PrimFloat.sub Z.sub.

(** [f // 2] on a float: [floor(f / 2)] as a float; a zero keeps its sign,
    an infinity or [nan] gives [nan]. *)
Definition float_floor_half (f : float) : float :=
  match Prim2SF f with
  | SpecFloat.S754_zero _ => f
  | SpecFloat.S754_finite s m e =>
    let n := if s then Z.neg m else Z.pos m in
    float_of_Z (if 1 <=? e then n * 2 ^ (e - 1) else n / 2 ^ (1 - e))
  | _ => PrimFloat.nan
  end.

(** [a // 2] *)
Definition py_floordiv2 (a : pynum) : pynum :=
  match a with
  | PInt x => PInt (x / 2)
  | PFloat f => PFloat (float_floor_half f)
  end.

(** A float against an int, compared exactly as Python does; [None] for
    [nan], which makes every comparison false. *)
Definition float_compare_Z (f : float) (z : Z) : option comparison :=
  match Prim2SF f with
  | SpecFloat.S754_zero _ => Some (Z.compare 0 z)
  | SpecFloat.S754_finite s m e =>
    let n := if s then Z.neg m else Z.pos m in
    Some (if 0 <=? e then Z.compare (n * 2 ^ e) z else Z.compare n (z * 2 ^ (- e)))
  | SpecFloat.S754_infinity s => Some (if s then Lt else Gt)
  | SpecFloat.S754_nan => None
  end.

(** [a < b] ([b > a]) *)
Definition py_lt (a b : pynum) : bool :=
  match a, b with
  | PInt x, PInt y => x <? y
  | PFloat f, PInt y => match float_compare_Z f y with Some Lt => true | _ => false end
  | PInt x, PFloat g => match float_compare_Z g x with Some Gt => true | _ => false end
  | PFloat f, PFloat g => PrimFloat.ltb f g
  end.

(** [int(v * expansion_ratio)] *)
Definition scaled_size (v : pynum) (expansion_ratio : float) : Z + py_exc :=
  match v with
  | PInt z => let! f := py_float_of_int z in int_of_float (PrimFloat.mul f expansion_ratio)
  | PFloat f => int_of_float (PrimFloat.mul f expansion_ratio)
  end.

(** The image size comes from [Image.open(...).size], two [int]s. *)
Definition apply_expansion_and_bounds (b : crop_box) (img_w img_h : Z)
    (expansion_ratio : float) : crop_box + py_exc :=
  let '(x, y, w, h) := b in
  if PrimFloat.eqb expansion_ratio 1%float then inl (x, y, w, h)
  else
    let! new_w := scaled_size w expansion_ratio in
    let! new_h := scaled_size h expansion_ratio in
    let! center_x := py_add x (py_floordiv2 w) in
    let! center_y := py_add y (py_floordiv2 h) in
    let! new_x := py_sub center_x (PInt (new_w / 2)) in
    let! new_y := py_sub center_y (PInt (new_h / 2)) in
    let new_x := if py_lt new_x (PInt 0) then PInt 0 else new_x in
    let new_y := if py_lt new_y (PInt 0) then PInt 0 else new_y in
    let! right := py_add new_x (PInt new_w) in
    let! new_w := if py_lt (PInt img_w) right then py_sub (PInt img_w) new_x
                  else inl (PInt new_w) in
    let! bottom := py_add new_y (PInt new_h) in
    let! new_h := if py_lt (PInt img_h) bottom then py_sub (PInt img_h) new_y
                  else inl (PInt new_h) in
    inl (new_x, new_y, new_w, new_h).

(** ** Auxiliary definitions for the statements *)

(** [img['id'] = len(valid_images) + 1] over a run of kept images. *)
Fixpoint renumber_from (s : Z) (l : list image) : list image :=
  match l with
  | [] => []
  | i :: l' => set_img_id s i :: renumber_from (s + 1) l'
  end.

(** [ann['image_id'] = image_id_map[...]; ann['id'] = len(updated) + 1]. *)
Fixpoint renumber_anns (m : gmap Z Z) (s : Z) (l : list annotation) : list annotation :=
  match l with
  | [] => []
  | a :: l' =>
    match m !! ann_image_id a with
    | Some nid => set_ann_ids s nid a :: renumber_anns m (s + 1) l'
    | None => renumber_anns m s l'
    end
  end.

(** Consecutive coordinate pairs [(coords[i], coords[i+1])]. *)
Fixpoint coord_pairs (l : list float) : list (float * float) :=
  match l with
  | x :: y :: l' => (x, y) :: coord_pairs l'
  | _ => []
  end.


(** A store built by the conversion pathway: one annotated image and one
    image added by [include_unmatched_images]. *)
Definition store_with_unmatched_image : store :=
  add_unmatched_image
    (process_file_pair reset (Some ("a.jpg"%string, 100, 100))
                       [("cat"%string, mkBBox 0 0 10 10)])
    (Some ("b.jpg"%string, 100, 100)).

(** The same with a second, 2x2 box on the annotated image. *)
Definition store_with_small_box : store :=
  add_unmatched_image
    (process_file_pair reset (Some ("a.jpg"%string, 100, 100))
                       [("cat"%string, mkBBox 0 0 10 10); ("cat"%string, mkBBox 5 5 2 2)])
    (Some ("b.jpg"%string, 100, 100)).

(** A store after one image with one YOLO line has been processed. *)
Definition yolo_scenario_store : store :=
  process_yolo_file dec_int dec_float ∅ 0 100 200
                    (append_image reset "img.jpg" 100 200)
                    ["0 0.5 0.5 0.2 0.4"%string].

(** ** The conversion pathway of [convert_to_coco] *)

(** [convert_to_coco]: [None] is an exception leaving it (the one
    [match_files] lets out), [Some None] is [return False] (no matched
    pair), [Some (Some st)] is [return True] with [st] the store whose
    [categories], [images] and [annotations] [_save_coco] writes (after its
    quality check).  [open_image] is [Image.open(...).size] ([None] when it
    raises) and [parse ann_file img_w img_h] the (category name, bbox)
    sequence the format parser records for that file before it returns or
    raises.  The directory creation and the JSON dump are not modelled.
    [coco_store_before_check] is the store built from the matched pairs
    and, with [include_unmatched_images], the unmatched images. *)
Definition coco_store_before_check (matched_pairs : list (string * string))
    (unmatched_images : list string) (open_image : string -> option (Z * Z))
    (parse : string -> Z -> Z -> list (string * bbox))
    (include_unmatched_images : bool) : store :=
  let opened (img_file : string) :=
    match open_image img_file with
    | Some (w, h) => Some (img_file, w, h)
    | None => None
    end in
  let st := fold_left (fun st '(ann_file, img_file) =>
              process_file_pair st (opened img_file)
                match open_image img_file with
                | Some (w, h) => parse ann_file w h
                | None => []
                end) matched_pairs reset in
  if include_unmatched_images
  then fold_left (fun st img_file => add_unmatched_image st (opened img_file))
                 unmatched_images st
  else st.

Definition convert_to_coco (annotation_listing image_listing : list string)
    (fmt : format) (read : string -> option ann_json)
    (open_image : string -> option (Z * Z))
    (parse : string -> Z -> Z -> list (string * bbox))
    (include_unmatched_images : bool) (area_threshold : Z) : option (option store) :=
  match match_files annotation_listing image_listing fmt read with
  | None => None
  | Some (matched_pairs, _, unmatched_images) =>
    match matched_pairs with
    | [] => Some None
    | _ =>
      Some (Some (check_and_filter_small_boxes
                    (coco_store_before_check matched_pairs unmatched_images open_image
                       parse include_unmatched_images)
                    area_threshold))
    end
  end.

(** ** JSON values, as [json.load] returns them *)

(** A JSON object is the list of its members in text order; as a Python
    dict its keys are those of the members and a repeated key holds the
    value of its last member. *)
Inductive json :=
| JNull
| JBool (b : bool)
| JInt (z : Z)
| JFloat (f : float)
| JStr (s : string)
| JArr (l : list json)
| JObj (kvs : list (string * json)).

(** [key in s] for two strings. *)
Fixpoint str_contains (key s : string) : bool :=
  String.prefix key s ||
  match s with
  | EmptyString => false
  | String _ s' => str_contains key s'
  end.

Definition json_is_str (key : string) (j : json) : bool :=
  match j with JStr s => String.eqb s key | _ => false end.

(** [key in container] for a [str] key: dict keys, list elements, or a
    substring; [None] is the [TypeError] of any other container. *)
Definition py_in (key : string) (j : json) : option bool :=
  match j with
  | JObj kvs => Some (existsb (fun kv => String.eqb kv.1 key) kvs)
  | JArr l => Some (existsb (json_is_str key) l)
  | JStr s => Some (str_contains key s)
  | _ => None
  end.

(** [d[key]] on a dict; [None] is a [KeyError] or, on a non-dict, a
    [TypeError]. *)
Definition obj_lookup (key : string) (kvs : list (string * json)) : option json :=
  fold_left (fun acc kv => if String.eqb kv.1 key then Some kv.2 else acc) kvs None.

Definition py_getitem (j : json) (key : string) : option json :=
  match j with JObj kvs => obj_lookup key kvs | _ => None end.

(** [isinstance(x, list)] of a subscript that may have raised. *)
Definition isinstance_list (r : option json) : option bool :=
  match r with
  | Some (JArr _) => Some true
  | Some _ => Some false
  | None => None
  end.

(** Python's short-circuit [and]: the right operand is not evaluated (and
    cannot raise) when the left one is false. *)
Definition py_and (c k : option bool) : option bool :=
  match c with
  | Some true => k
  | Some false => Some false
  | None => None
  end.

(** [any(f(x) for x in l)]: stops at the first true value. *)
Fixpoint py_any (f : json -> option bool) (l : list json) : option bool :=
  match l with
  | [] => Some false
  | x :: l' =>
    match f x with
    | Some true => Some true
    | Some false => py_any f l'
    | None => None
    end
  end.

(** ** FormatDetector: [detect_format] *)

Inductive json_kind := KLabelme | KHk | KCoco | KNone.

(** ['tagInfo' in item and 'tagName' in item] *)
Definition hk_item_ok (item : json) : option bool :=
  py_and (py_in "tagInfo" item) (py_in "tagName" item).

(** The [if/elif] chain on the content of a sampled JSON file; [None] is an
    exception, which the surrounding bare [except] turns into no score. *)
Definition detect_json (data : json) : option json_kind :=
  match py_and (py_in "shapes" data)
          (py_and (py_in "imagePath" data) (isinstance_list (py_getitem data "shapes"))) with
  | None => None
  | Some true => Some KLabelme
  | Some false =>
    match py_and (py_in "imgName" data)
            (py_and (py_in "list" data) (isinstance_list (py_getitem data "list"))) with
    | None => None
    | Some true =>
      match py_getitem data "list" with
      | Some (JArr []) => Some KNone
      | Some (JArr items) =>
        match py_any hk_item_ok items with
        | Some true => Some KHk
        | Some false => Some KNone
        | None => None
        end
      | _ => Some KNone
      end
    | Some false =>
      match py_and (py_in "annotations" data)
              (isinstance_list (py_getitem data "annotations")) with
      | None => None
      | Some true => Some KCoco
      | Some false => Some KNone
      end
    end
  end.

Inductive sample_score := SYolo | SVoc | SCoco | SLabelme | SHk.

Definition sample_score_eqb (a b : sample_score) : bool :=
  match a, b with
  | SYolo, SYolo | SVoc, SVoc | SCoco, SCoco | SLabelme, SLabelme | SHk, SHk => true
  | _, _ => false
  end.

(** [f.startswith('.')] *)
Definition startswith_dot (f : string) : bool :=
  match f with String "."%char _ => true | _ => false end.

Section DetectFormat.

(** [float(value)] succeeding, as [_is_float] tests it. *)
Variable float_of_string : string -> option float.
(** [open(...).readline()] of a file; [None] when opening or decoding raises. *)
Variable read_first_line : string -> option string.
(** The tag names of the elements of a parsed XML file; [None] when
    [parse] raises. *)
Variable read_xml : string -> option (list string).
(** [json.load] of a file; [None] when opening or decoding raises. *)
Variable read_json : string -> option json.

(** The YOLO test on the first line: [line.strip()] non-empty, five
    tokens, each accepted by [float]. *)
Definition yolo_first_line_ok (line : string) : bool :=
  match py_split line with
  | [] => false
  | parts => (length parts =? 5)%nat && forallb (fun p => match float_of_string p with Some _ => true | None => false end) parts
  end.

(** The score one sampled file adds (at most one). *)
Definition sample_file_score (filename : string) : option sample_score :=
  if endswith filename ".txt" && negb (String.eqb filename "classes.txt") then
    match read_first_line filename with
    | Some line => if yolo_first_line_ok line then Some SYolo else None
    | None => None
    end
  else if endswith filename ".xml" then
    match read_xml filename with
    | Some tags =>
      if mem "annotation" tags && mem "object" tags && mem "bndbox" tags
      then Some SVoc else None
    | None => None
    end
  else if endswith filename ".json" then
    match read_json filename with
    | Some data =>
      match detect_json data with
      | Some KLabelme => Some SLabelme
      | Some KHk => Some SHk
      | Some KCoco => Some SCoco
      | _ => None
      end
    | None => None
    end
  else None.

Definition format_score (k : sample_score) (sample_files : list string) : nat :=
  length (List.filter (fun f => match sample_file_score f with
                                | Some s => sample_score_eqb s k
                                | None => false
                                end) sample_files).

(** [detect_format(input_path)]: [listing] is [os.listdir(input_path)], or
    [None] when the path does not exist. *)
Definition detect_format (listing : option (list string)) : option format :=
  match listing with
  | None => None
  | Some [] => None
  | Some files =>
    let txt_count := length (List.filter (fun f =>
                       endswith f ".txt" && negb (String.eqb f "classes.txt")) files) in
    let xml_count := length (List.filter (fun f => endswith f ".xml") files) in
    let json_count := length (List.filter (fun f => endswith f ".json") files) in
    let has_classes_txt := mem "classes.txt" files in
    let sample_files := List.filter (fun f => negb (startswith_dot f)) (firstn 5 files) in
    if (0 <? format_score SLabelme sample_files)%nat then Some Labelme
    else if (0 <? format_score SHk sample_files)%nat then Some Hk
    else if (0 <? format_score SYolo sample_files)%nat
            || has_classes_txt && (0 <? txt_count)%nat then Some Yolo
    else if (0 <? format_score SVoc sample_files)%nat && (0 <? xml_count)%nat then Some Voc
    else if (0 <? format_score SCoco sample_files)%nat && (0 <? json_count)%nat
    then Some CocoSingle
    else None
  end.

End DetectFormat.

(** ** Segmentation pathway: [_find_matching_image], the listing checks of
    [run_segmentation_conversion_process] and [_cleanup_unmatched_files] *)

Definition seg_img_exts : list string := [".jpg"; ".jpeg"; ".png"; ".bmp"; ".tif"; ".tiff"].

(** [_find_matching_image]: [os.path.exists(os.path.join(images_dir, name))]
    is the membership of [name] in the listing of [images_dir]; the joined
    path is represented by the name. *)
Definition find_matching_image (image_listing : list string) (txt_name : string)
    : option string :=
  let base_name := (splitext txt_name).1 in
  find (fun n => mem n image_listing)
       (map (fun ext => base_name ++ ext)%string seg_img_exts).

(** [[f for f in os.listdir(annotation_path) if f.lower().endswith('.txt')]] *)
Definition seg_txt_files (annotation_listing : list string) : list string :=
  List.filter (fun f => endswith (lower f) ".txt") annotation_listing.

(** [[f for f in os.listdir(image_path) if os.path.splitext(f)[1].lower() in img_exts]] *)
Definition seg_image_files (image_listing : list string) : list string :=
  List.filter (fun f => mem (lower (splitext f).2) seg_img_exts) image_listing.

(** One iteration of the loop over the txt files: [image_size] is
    [_get_image_size] ([None] for its [(None, None)]) and [txt_to_mask] the
    boolean [_txt_to_mask] returns. *)
Definition seg_txt_step (image_listing : list string)
    (image_size : string -> option (Z * Z)) (txt_to_mask : string -> Z -> Z -> bool)
    (acc : nat * list string) (txt_name : string) : nat * list string :=
  let '(successful_count, txt_no_image_list) := acc in
  match find_matching_image image_listing txt_name with
  | None => (successful_count, txt_no_image_list ++ [txt_name])
  | Some img_path =>
    match image_size img_path with
    | None => (successful_count, txt_no_image_list ++ [txt_name])
    | Some (width, height) =>
      if txt_to_mask txt_name width height
      then (S successful_count, txt_no_image_list)
      else (successful_count, txt_no_image_list)
    end
  end.

(** [successful_count], [txt_no_image_list] and [image_no_txt_list] of
    [run_segmentation_conversion_process]; [os.path.exists(txt_path)] is the
    membership of the name in the annotation listing. *)
Definition run_segmentation_lists (annotation_listing image_listing : list string)
    (image_size : string -> option (Z * Z)) (txt_to_mask : string -> Z -> Z -> bool)
    : nat * list string * list string :=
  let '(successful_count, txt_no_image_list) :=
    fold_left (seg_txt_step image_listing image_size txt_to_mask)
              (seg_txt_files annotation_listing) (0%nat, []) in
  let image_no_txt_list :=
    List.filter (fun img_name =>
      negb (mem ((splitext img_name).1 ++ ".txt")%string annotation_listing))
      (seg_image_files image_listing) in
  (successful_count, txt_no_image_list, image_no_txt_list).

(** [_cleanup_unmatched_files]: the two listings after the [os.remove]
    calls (the entries are files, so each removal succeeds). *)
Definition cleanup_unmatched_files (annotation_listing image_listing : list string)
    (txt_no_image_list image_no_txt_list : list string) : list string * list string :=
  (List.filter (fun f => negb (mem f txt_no_image_list)) annotation_listing,
   List.filter (fun f => negb (mem f image_no_txt_list)) image_listing).

(** ** Class names: [_load_classes_file] *)

Fixpoint lstrip_ascii (l : list ascii) : list ascii :=
  match l with
  | c :: l' => if is_space c then lstrip_ascii l' else l
  | [] => []
  end.

(** [str.strip()] *)
Definition py_strip (s : string) : string :=
  string_of_list_ascii (rev (lstrip_ascii (rev (lstrip_ascii (list_ascii_of_string s))))).

(** [get_crop_parameters]: [inputs] are the lines typed at the prompt, and
    [float_of_string] is [float] ([None] for its [ValueError]); running out
    of input is the [EOFError] of [input], [None] here. *)
Fixpoint get_crop_parameters (float_of_string : string -> option float)
    (inputs : list string) : option float :=
  match inputs with
  | [] => None
  | line :: rest =>
    let expansion_input := py_strip line in
    if String.eqb expansion_input "" then Some 1%float
    else
      match float_of_string expansion_input with
      | None => get_crop_parameters float_of_string rest
      | Some expansion_ratio =>
        if PrimFloat.leb expansion_ratio 0%float
        then get_crop_parameters float_of_string rest
        else Some expansion_ratio
      end
  end.

(** [[line.strip() for line in f if line.strip()]] *)
Definition classes_of_lines (lines : list string) : list string :=
  List.filter (fun s => negb (String.eqb s "")) (map py_strip lines).

(** [{i: name for i, name in enumerate(classes)}] *)
Definition enumerate_map (classes : list string) : gmap Z string :=
  fold_left (fun m (iname : Z * string) => <[iname.1 := iname.2]> m)
            (zip (zseq 0 (length classes)) classes) ∅.

(** [_load_classes_file]: [lines] are the lines of the file ([None] when
    reading raises) and [confirm] the answer typed at the prompt. *)
Definition load_classes_file (lines : option (list string)) (confirm : string)
    : option (gmap Z string) :=
  match lines with
  | None => None
  | Some ls =>
    if String.eqb (py_strip (lower confirm)) "n" then None
    else Some (enumerate_map (classes_of_lines ls))
  end.

(** A [class_mapping] of [None] acts as an empty one in
    [if class_mapping and class_id in class_mapping]. *)
Definition mapping_or_empty (class_mapping : option (gmap Z string)) : gmap Z string :=
  match class_mapping with Some m => m | None => ∅ end.

(** The numbering the building steps keep: image and annotation ids are
    0, 1, ... in list order and the counters are the list lengths. *)
Definition ids_from_zero (st : store) : Prop :=
  map img_id (images st) = zseq 0 (length (images st)) /\
  img_count st = Z.of_nat (length (images st)) /\
  map ann_id (annotations st) = zseq 0 (length (annotations st)) /\
  ann_count st = Z.of_nat (length (annotations st)).

(** The test [splitext] applies between the last separator and the last
    dot, for a name [b] followed by an extension: some character of the
    last path component of [b] is not a dot. *)
Definition last_part_has_non_dot (b : string) : bool :=
  let filenameIndex := rfind "/"%char b + 1 in
  existsb (fun i => negb (Ascii.eqb (char_at b i) "."%char))
          (map (fun k => filenameIndex + Z.of_nat k)
               (seq 0 (Z.to_nat (Z.of_nat (String.length b) - filenameIndex)))).

(** What [match_files] has established after a prefix of the annotation
    files: the unmatched images are the image files not in a matched pair,
    each once; matched images are image files; every annotation file seen
    is in a matched pair or among the unmatched annotations. *)
Definition match_accounting (image_files seen : list string) (acc : match_state) : Prop :=
  let '(matched_pairs, unmatched_annotations, unmatched_images) := acc in
  NoDup unmatched_images /\
  (forall i, i ∈ unmatched_images <-> i ∈ image_files /\ i ∉ map snd matched_pairs) /\
  (forall i, i ∈ map snd matched_pairs -> i ∈ image_files) /\
  (forall f, f ∈ seen <-> f ∈ map fst matched_pairs \/ f ∈ unmatched_annotations).

(** ** Sample inputs *)

(** Three polygon lines: one inside the image, one with class 300 (above
    the default 254), one with coordinates outside [0, 1]. *)
Definition sample_mask_lines : list string :=
  ["0 0.1 0.1 0.9 0.1 0.5 0.8"; "300 0.1 0.1 0.9 0.1 0.5 0.8"; "2 -1.0 0.0 2.0 0.0 0.5 1.5"].

(** A YOLO conversion of [a.txt] with images [a.jpg] and [b.jpg], each
    100x100; the parser records a 10x10 and a 2x2 box; unmatched images are
    included and the threshold is 25. *)
Definition sample_convert : option (option store) :=
  convert_to_coco ["a.txt"; "classes.txt"] ["a.jpg"; "b.jpg"] Yolo (fun _ => None)
    (fun _ => Some (100, 100))
    (fun _ _ _ => [("cat", mkBBox 0 0 10 10); ("cat", mkBBox 5 5 2 2)])
    true 25.

Definition sample_converted_store : store :=
  match sample_convert with Some (Some st) => st | _ => reset end.

(** [float] on the inputs used below: decimals and [nan]. *)
Definition float_or_nan (s : string) : option float :=
  if String.eqb s "nan" then Some PrimFloat.nan else dec_float s.



(** A classes file with a line holding only U+001C and a line ending in
    U+00A0, both Python whitespace. *)
Definition classes_lines_sample : list string :=
  [" cat "; String (ascii_of_nat 28) ""; String.append "dog" (String (ascii_of_nat 160) "")].

(** A reader giving every file a valid YOLO first line, and a JSON reader
    giving one file a labelme document. *)
Definition reads_yolo_line (f : string) : option string := Some "0 0.5 0.5 0.2 0.4".

Definition reads_labelme_for (g : string) (f : string) : option json :=
  if String.eqb f g then Some (JObj [("shapes", JArr []); ("imagePath", JStr "x.jpg")])
  else None.


(** ** Proofs *)

(** *** QualityFilter *)

Lemma zseq_S (s : Z) (n : nat) : zseq s (S n) = s :: zseq (s + 1) n.
Proof.
  unfold zseq. simpl. f_equal; [lia|].
  rewrite <- seq_shift, map_map. apply map_ext. intros. lia.
Qed.

Lemma zseq_app (s : Z) (n : nat) : zseq s (S n) = zseq s n ++ [s + Z.of_nat n].
Proof. unfold zseq. rewrite seq_S, map_app. reflexivity. Qed.

Lemma collect_small_boxes_app thr l acc :
  fold_left (fun acc ann =>
    let area := bbox_area ann in
    if area <? thr
    then acc ++ [mkSmall (ann_id ann) (ann_image_id ann) (ann_category_id ann)
                         area (ann_bbox ann)]
    else acc) l acc =
  acc ++ map (fun ann => mkSmall (ann_id ann) (ann_image_id ann) (ann_category_id ann)
                                 (bbox_area ann) (ann_bbox ann))
             (List.filter (fun ann => bbox_area ann <? thr) l).
Proof.
  revert acc. induction l as [|a l IH]; intros acc; simpl.
  - by rewrite app_nil_r.
  - destruct (bbox_area a <? thr); rewrite IH; simpl; [by rewrite <- app_assoc|done].
Qed.

Lemma collect_small_boxes_eq thr l :
  collect_small_boxes thr l =
  map (fun ann => mkSmall (ann_id ann) (ann_image_id ann) (ann_category_id ann)
                          (bbox_area ann) (ann_bbox ann))
      (List.filter (fun ann => bbox_area ann <? thr) l).
Proof. unfold collect_small_boxes. by rewrite collect_small_boxes_app. Qed.

Lemma collect_small_boxes_nil thr l :
  collect_small_boxes thr l = [] <-> Forall (fun a => thr <= bbox_area a) l.
Proof.
  rewrite collect_small_boxes_eq. induction l as [|a l IH]; simpl.
  - split; auto.
  - rewrite Forall_cons. destruct (bbox_area a <? thr) eqn:E.
    + apply Z.ltb_lt in E. split; [done|]. intros [? _]. lia.
    + apply Z.ltb_ge in E. rewrite IH. tauto.
Qed.

Lemma count_step_fold_is_Some (l : list annotation) (m : gmap Z nat) k :
  is_Some (fold_left count_step l m !! k) <-> is_Some (m !! k) \/ k ∈ map ann_image_id l.
Proof.
  revert m. induction l as [|a l IH]; intros m; simpl.
  - rewrite elem_of_nil. tauto.
  - rewrite IH, elem_of_cons. unfold count_step.
    destruct (decide (k = ann_image_id a)) as [->|Hne].
    + destruct (m !! ann_image_id a); rewrite lookup_insert_eq; split; eauto.
    + destruct (m !! ann_image_id a); rewrite lookup_insert_ne by congruence; tauto.
Qed.

Lemma image_ann_count_is_Some (l : list annotation) k :
  is_Some (image_ann_count l !! k) <-> k ∈ map ann_image_id l.
Proof.
  unfold image_ann_count. rewrite count_step_fold_is_Some, lookup_empty.
  split; [intros [[? ?]|?]; done|auto].
Qed.

Lemma renumber_from_length s l : length (renumber_from s l) = length l.
Proof. revert s. induction l; intros s; simpl; auto. Qed.

Lemma renumber_from_ids s l : map img_id (renumber_from s l) = zseq s (length l).
Proof.
  revert s. induction l as [|i l IH]; intros s; [done|].
  simpl length. rewrite zseq_S. simpl. by rewrite IH.
Qed.

Lemma renumber_from_rel s l :
  Forall2 (fun i i' => i' = set_img_id (img_id i') i) l (renumber_from s l).
Proof. revert s. induction l; intros s; simpl; constructor; auto. Qed.

Section ImagePass.

Variable cnt : gmap Z nat.

Lemma image_pass_images l vi m :
  (fold_left (image_step cnt) l (vi, m)).1 =
  vi ++ renumber_from (Z.of_nat (length vi) + 1)
                      (filter (fun img => is_Some (cnt !! img_id img)) l).
Proof.
  revert vi m. induction l as [|i l IH]; intros vi m; cbn [fold_left].
  - by rewrite app_nil_r.
  - unfold image_step at 2. case_bool_decide as H.
    + rewrite IH, filter_cons_True by done. cbn [renumber_from].
      rewrite <- app_assoc. simpl. rewrite length_app. simpl.
      do 3 f_equal. lia.
    + by rewrite IH, filter_cons_False.
Qed.

Lemma image_pass_map_origin l vi m (orig : list image) :
  length vi = length orig ->
  (forall o n, m !! o = Some n ->
     exists img, orig !! Z.to_nat (n - 1) = Some img /\ img_id img = o /\ 1 <= n) ->
  forall o n, (fold_left (image_step cnt) l (vi, m)).2 !! o = Some n ->
    exists img, (orig ++ filter (fun img => is_Some (cnt !! img_id img)) l)
                  !! Z.to_nat (n - 1) = Some img /\ img_id img = o /\ 1 <= n.
Proof.
  revert vi m orig. induction l as [|i l IH]; intros vi m orig Hlen Hm; cbn [fold_left].
  - intros o n Hon. rewrite filter_nil, app_nil_r. eauto.
  - unfold image_step at 2. case_bool_decide as H.
    + rewrite filter_cons_True by done.
      replace (orig ++ i :: _) with ((orig ++ [i]) ++
                 filter (fun img => is_Some (cnt !! img_id img)) l)
        by (by rewrite <- app_assoc).
      apply IH; [rewrite !length_app; simpl; lia|].
      intros o n Hon. destruct (decide (o = img_id i)) as [->|Hne].
      * rewrite lookup_insert_eq in Hon. injection Hon as <-.
        exists i. split; [|lia]. rewrite lookup_app_r by lia.
        replace (Z.to_nat (Z.of_nat (length vi) + 1 - 1) - length orig)%nat with 0%nat by lia.
        done.
      * rewrite lookup_insert_ne in Hon by congruence.
        destruct (Hm o n Hon) as (img & Himg & Hid & Hn).
        exists img. split; [|done]. by apply lookup_app_l_Some.
    + rewrite filter_cons_False by done. apply IH; auto.
Qed.

Lemma image_pass_map_position l vi m (orig : list image) :
  length vi = length orig ->
  NoDup (map img_id (orig ++ filter (fun img => is_Some (cnt !! img_id img)) l)) ->
  (forall k img, orig !! k = Some img -> m !! img_id img = Some (Z.of_nat k + 1)) ->
  forall k img, (orig ++ filter (fun img => is_Some (cnt !! img_id img)) l) !! k = Some img ->
    (fold_left (image_step cnt) l (vi, m)).2 !! img_id img = Some (Z.of_nat k + 1).
Proof.
  revert vi m orig. induction l as [|i l IH]; intros vi m orig Hlen Hnd Hm; cbn [fold_left].
  - rewrite filter_nil, app_nil_r. auto.
  - unfold image_step at 2. case_bool_decide as H.
    + rewrite filter_cons_True in Hnd |- * by done.
      replace (orig ++ i :: _) with ((orig ++ [i]) ++
                 filter (fun img => is_Some (cnt !! img_id img)) l)
        in Hnd |- * by (by rewrite <- app_assoc).
      apply IH; [rewrite !length_app; simpl; lia|done|].
      rewrite map_app in Hnd. apply NoDup_app in Hnd as (Hnd1 & _ & _).
      rewrite map_app in Hnd1. apply NoDup_app in Hnd1 as (_ & Hdisj & _).
      intros k img Hk. apply lookup_app_Some in Hk as [Hk|[Hge Hk]].
      * assert (img_id img <> img_id i) as Hne.
        { intros Heq. apply (Hdisj (img_id img)).
          - apply list_elem_of_In, in_map, list_elem_of_In.
            by eapply list_elem_of_lookup_2.
          - rewrite Heq. by left. }
        rewrite lookup_insert_ne by congruence. auto.
      * apply list_lookup_singleton_Some in Hk as [Hk ->].
        rewrite lookup_insert_eq. f_equal. lia.
    + rewrite filter_cons_False in Hnd |- * by done. apply IH; auto.
Qed.

Lemma image_pass_map_lookup_none l vi m o :
  o ∉ map img_id (filter (fun img => is_Some (cnt !! img_id img)) l) ->
  (fold_left (image_step cnt) l (vi, m)).2 !! o = m !! o.
Proof.
  revert vi m. induction l as [|i l IH]; intros vi m Ho; cbn [fold_left]; [done|].
  unfold image_step at 2. case_bool_decide as H.
  - rewrite filter_cons_True in Ho by done. simpl in Ho. apply not_elem_of_cons in Ho as [Hne Ho].
    rewrite IH by done. by rewrite lookup_insert_ne by congruence.
  - rewrite filter_cons_False in Ho by done. auto.
Qed.

Lemma image_pass_map_is_Some l vi m o :
  o ∈ map img_id (filter (fun img => is_Some (cnt !! img_id img)) l) ->
  is_Some ((fold_left (image_step cnt) l (vi, m)).2 !! o).
Proof.
  revert vi m. induction l as [|i l IH]; intros vi m Ho; cbn [fold_left].
  - rewrite filter_nil in Ho. simpl in Ho. by apply elem_of_nil in Ho.
  - unfold image_step at 2. case_bool_decide as H.
    + rewrite filter_cons_True in Ho by done. simpl in Ho. apply elem_of_cons in Ho as [->|Ho]; [|auto].
      destruct (decide (img_id i ∈ map img_id (filter (fun img => is_Some (cnt !! img_id img)) l))).
      * auto.
      * rewrite image_pass_map_lookup_none by done. rewrite lookup_insert_eq. eauto.
    + rewrite filter_cons_False in Ho by done. auto.
Qed.

End ImagePass.

Lemma ann_pass_eq m l acc :
  fold_left (ann_step m) l acc = acc ++ renumber_anns m (Z.of_nat (length acc) + 1) l.
Proof.
  revert acc. induction l as [|a l IH]; intros acc; cbn [fold_left renumber_anns].
  - by rewrite app_nil_r.
  - unfold ann_step at 2. destruct (m !! ann_image_id a) eqn:E.
    + rewrite IH, <- app_assoc, length_app. simpl. do 3 f_equal. lia.
    + by rewrite IH.
Qed.

Lemma renumber_anns_ids m s l :
  map ann_id (renumber_anns m s l) = zseq s (length (renumber_anns m s l)).
Proof.
  revert s. induction l as [|a l IH]; intros s; [done|]. simpl.
  destruct (m !! ann_image_id a); [|auto].
  simpl length. rewrite zseq_S. simpl. by rewrite IH.
Qed.

Lemma renumber_anns_rel m s l :
  Forall2 (fun a a' => a' = set_ann_ids (ann_id a') (ann_image_id a') a /\
                       m !! ann_image_id a = Some (ann_image_id a'))
          (filter (fun a => is_Some (m !! ann_image_id a)) l) (renumber_anns m s l).
Proof.
  revert s. induction l as [|a l IH]; intros s; simpl; [constructor|].
  destruct (m !! ann_image_id a) eqn:E.
  - rewrite filter_cons_True by (rewrite E; eauto). constructor; auto.
  - rewrite filter_cons_False by (rewrite E; intros [? ?]; done). auto.
Qed.

(** The result of the removal path, in terms of the survivors. *)
Lemma remove_small_boxes_images st small thr :
  images (remove_small_boxes st small thr) =
  renumber_from 1 (filter (fun img => is_Some (image_ann_count
                     (valid_annotations small (annotations st)) !! img_id img)) (images st)).
Proof.
  unfold remove_small_boxes, image_pass.
  destruct (fold_left _ _ _) as [vi m] eqn:E. simpl.
  change vi with ((vi, m).1). rewrite <- E, image_pass_images. done.
Qed.

Lemma remove_small_boxes_annotations st small thr :
  annotations (remove_small_boxes st small thr) =
  renumber_anns (image_id_map st small) 1 (valid_annotations small (annotations st)).
Proof.
  unfold remove_small_boxes, image_id_map, image_pass.
  destruct (fold_left _ _ _) as [vi m] eqn:E. simpl. by rewrite ann_pass_eq.
Qed.

Lemma kept_image_iff small (anns : list annotation) (img : image) :
  is_Some (image_ann_count (valid_annotations small anns) !! img_id img) <->
  img_id img ∈ map ann_image_id (valid_annotations small anns).
Proof. apply image_ann_count_is_Some. Qed.

Lemma check_and_filter_remove st thr :
  Exists (fun a => bbox_area a < thr) (annotations st) ->
  check_and_filter_small_boxes st thr =
  remove_small_boxes st (collect_small_boxes thr (annotations st)) thr.
Proof.
  intros Hex. unfold check_and_filter_small_boxes.
  destruct (annotations st) as [|a l] eqn:Ea; [by inversion Hex|].
  rewrite <- Ea. destruct (collect_small_boxes thr (annotations st)) eqn:Ec.
  - apply collect_small_boxes_nil in Ec. apply Exists_exists in Hex as (x & Hx & Hlt).
    rewrite Forall_forall in Ec. rewrite Ea in Ec. specialize (Ec x Hx). lia.
  - done.
Qed.

Lemma kept_images_filter st small :
  filter (fun img => is_Some (image_ann_count
            (valid_annotations small (annotations st)) !! img_id img)) (images st) =
  filter (fun img => img_id img ∈ map ann_image_id
            (valid_annotations small (annotations st))) (images st).
Proof. apply list_filter_iff. intros. apply image_ann_count_is_Some. Qed.

Lemma image_id_map_origin st small o n :
  image_id_map st small !! o = Some n ->
  exists img, filter (fun img => img_id img ∈ map ann_image_id
                        (valid_annotations small (annotations st))) (images st)
                !! Z.to_nat (n - 1) = Some img /\ img_id img = o /\ 1 <= n.
Proof.
  intros H. rewrite <- kept_images_filter.
  unfold image_id_map, image_pass in H.
  eapply (image_pass_map_origin _ _ [] ∅ []) in H; [exact H|done|].
  intros o' n' Hn'. by rewrite lookup_empty in Hn'.
Qed.

(** C10: when no annotation's width times height is below the threshold
    (in particular when there is no annotation), the quality check returns
    the store unchanged. *)
Theorem quality_check_without_small_box_is_identity (st : store) (area_threshold : Z)
    (Hnone : Forall (fun a => area_threshold <= bbox_area a) (annotations st)) :
  check_and_filter_small_boxes st area_threshold = st.
Proof.
  apply collect_small_boxes_nil in Hnone.
  unfold check_and_filter_small_boxes. rewrite Hnone. by destruct (annotations st).
Qed.

Lemma quality_check_without_small_box_is_identity_witness :
  Forall (fun a => 25 <= bbox_area a) (annotations store_with_unmatched_image) /\
  check_and_filter_small_boxes store_with_unmatched_image 25 = store_with_unmatched_image.
Proof.
  assert (H : Forall (fun a => 25 <= bbox_area a) (annotations store_with_unmatched_image))
    by (vm_compute; repeat constructor; discriminate).
  split; [exact H|].
  exact (quality_check_without_small_box_is_identity store_with_unmatched_image 25 H).
Defined.

Lemma check_and_filter_no_small_box st thr :
  Forall (fun a => thr <= bbox_area a) (annotations st) ->
  check_and_filter_small_boxes st thr = st.
Proof.
  intros Hnone. apply collect_small_boxes_nil in Hnone.
  unfold check_and_filter_small_boxes. rewrite Hnone. by destruct (annotations st).
Qed.

Lemma image_id_map_kept st small img :
  img ∈ filter (fun img => img_id img ∈ map ann_image_id
                 (valid_annotations small (annotations st))) (images st) ->
  is_Some (image_id_map st small !! img_id img).
Proof.
  intros Himg. unfold image_id_map, image_pass.
  apply image_pass_map_is_Some. rewrite kept_images_filter.
  apply list_elem_of_In, in_map, list_elem_of_In. done.
Qed.

(** C2 (as corrected): once at least one annotation is below the threshold,
    the filter renumbers the surviving images 1, 2, ... in their original
    order (only the id changes), the old→new map is defined exactly on the
    old ids of the surviving images and sends each to the new id of a
    surviving image with that old id, and the surviving annotations are
    renumbered 1, 2, ... in their original order with their [image_id]
    rewritten through that map.  With no annotation below the threshold
    (or none at all) the filter returns early and the store, ids included,
    is unchanged. *)
Theorem quality_filter_renumbers_from_one (st : store) (area_threshold : Z) :
  let small := collect_small_boxes area_threshold (annotations st) in
  let valid := valid_annotations small (annotations st) in
  let kept := filter (fun img => img_id img ∈ map ann_image_id valid) (images st) in
  let m := image_id_map st small in
  let st' := check_and_filter_small_boxes st area_threshold in
  (Exists (fun a => bbox_area a < area_threshold) (annotations st) ->
   map img_id (images st') = zseq 1 (length (images st')) /\
   Forall2 (fun i i' => i' = set_img_id (img_id i') i) kept (images st') /\
   (forall img, img ∈ kept -> is_Some (m !! img_id img)) /\
   (forall o n, m !! o = Some n ->
      exists img, kept !! Z.to_nat (n - 1) = Some img /\ img_id img = o /\ 1 <= n) /\
   map ann_id (annotations st') = zseq 1 (length (annotations st')) /\
   Forall2 (fun a a' => a' = set_ann_ids (ann_id a') (ann_image_id a') a /\
                        m !! ann_image_id a = Some (ann_image_id a'))
           (filter (fun a => is_Some (m !! ann_image_id a)) valid) (annotations st')) /\
  (Forall (fun a => area_threshold <= bbox_area a) (annotations st) -> st' = st).
Proof.
  cbv zeta. split; [|apply check_and_filter_no_small_box].
  intros Hsmall. rewrite check_and_filter_remove by done.
  rewrite remove_small_boxes_images, remove_small_boxes_annotations, kept_images_filter.
  split; [by rewrite renumber_from_ids, renumber_from_length|].
  split; [apply renumber_from_rel|].
  split; [intros img; apply image_id_map_kept|].
  split; [intros o n; apply image_id_map_origin|].
  split; [apply renumber_anns_ids|apply renumber_anns_rel].
Qed.

Lemma quality_filter_renumbers_from_one_witness :
  Exists (fun a => bbox_area a < 25) (annotations store_with_small_box) /\
  map img_id (images (check_and_filter_small_boxes store_with_small_box 25)) = [1] /\
  Forall (fun a => 25 <= bbox_area a) (annotations store_with_unmatched_image) /\
  check_and_filter_small_boxes store_with_unmatched_image 25 = store_with_unmatched_image.
Proof.
  assert (H : Exists (fun a => bbox_area a < 25) (annotations store_with_small_box))
    by (vm_compute; right; left; reflexivity).
  assert (H' : Forall (fun a => 25 <= bbox_area a) (annotations store_with_unmatched_image))
    by (vm_compute; repeat constructor; discriminate).
  split; [exact H|].
  destruct (quality_filter_renumbers_from_one store_with_small_box 25) as [Hs _].
  destruct (Hs H) as [Hids _].
  split; [rewrite Hids; vm_compute; reflexivity|].
  split; [exact H'|].
  destruct (quality_filter_renumbers_from_one store_with_unmatched_image 25) as [_ Hn].
  exact (Hn H').
Defined.

Lemma NoDup_map_filter {A B} (f : A -> B) (P : A -> Prop) `{!forall x, Decision (P x)}
    (l : list A) :
  NoDup (map f l) -> NoDup (map f (filter P l)).
Proof.
  induction l as [|x l IH]; intros Hnd; [by rewrite filter_nil|].
  cbn [map] in Hnd. apply NoDup_cons in Hnd as [Hx Hnd].
  destruct (decide (P x)).
  - rewrite filter_cons_True by done. cbn [map]. apply NoDup_cons. split; [|auto].
    intros Hin. apply Hx. apply list_elem_of_In in Hin. apply list_elem_of_In.
    apply in_map_iff in Hin as (y & Hy & Hiny). apply in_map_iff. exists y.
    split; [done|]. apply list_elem_of_In in Hiny. apply list_elem_of_In.
    by apply list_elem_of_filter in Hiny as [_ ?].
  - rewrite filter_cons_False by done. auto.
Qed.

Lemma renumber_from_lookup s l k i' :
  renumber_from s l !! k = Some i' ->
  exists i, l !! k = Some i /\ i' = set_img_id (s + Z.of_nat k) i.
Proof.
  revert s k. induction l as [|i l IH]; intros s [|k] H; simpl in H; try done.
  - injection H as <-. exists i. split; [done|]. by rewrite Z.add_0_r.
  - apply IH in H as (i0 & Hk & ->). exists i0. split; [done|]. f_equal. lia.
Qed.

Lemma elem_of_map_image_id (l : list annotation) o :
  o ∈ map ann_image_id l -> exists a, a ∈ l /\ ann_image_id a = o.
Proof.
  intros Hin. apply list_elem_of_In, in_map_iff in Hin as (a & Ha & Hin).
  exists a. split; [by apply list_elem_of_In|done].
Qed.

(** C3 (as corrected): once at least one annotation is below the threshold,
    the filter keeps exactly the images whose id a remaining annotation
    references (images added as unmatched, with no annotation, are dropped),
    and, image ids being distinct as the conversion assigns them, every
    image left has at least one annotation left referencing it.  With no
    annotation below the threshold (or none at all) the filter returns
    early and every image stays, those without annotations included. *)
Theorem quality_filter_drops_unreferenced_images (st : store) (area_threshold : Z) :
  let valid := valid_annotations (collect_small_boxes area_threshold (annotations st))
                                 (annotations st) in
  let st' := check_and_filter_small_boxes st area_threshold in
  (Exists (fun a => bbox_area a < area_threshold) (annotations st) ->
   Forall2 (fun i i' => i' = set_img_id (img_id i') i)
           (filter (fun img => img_id img ∈ map ann_image_id valid) (images st))
           (images st') /\
   (NoDup (map img_id (images st)) ->
    forall img', img' ∈ images st' ->
      exists a', a' ∈ annotations st' /\ ann_image_id a' = img_id img')) /\
  (Forall (fun a => area_threshold <= bbox_area a) (annotations st) ->
   images st' = images st /\ annotations st' = annotations st).
Proof.
  cbv zeta. split; [|intros Hn; by rewrite check_and_filter_no_small_box].
  intros Hsmall. rewrite check_and_filter_remove by done.
  set (small := collect_small_boxes area_threshold (annotations st)).
  rewrite remove_small_boxes_images, remove_small_boxes_annotations, kept_images_filter.
  split; [apply renumber_from_rel|].
  intros Hnodup img' Hin. apply list_elem_of_lookup in Hin as [k Hk].
  apply renumber_from_lookup in Hk as (img & Hk & ->). simpl.
  pose proof (list_elem_of_lookup_2 _ _ _ Hk) as Himg.
  apply list_elem_of_filter in Himg as [Href _].
  apply elem_of_map_image_id in Href as (a & Ha & Haid).
  assert (Hm : image_id_map st small !! img_id img = Some (1 + Z.of_nat k)).
  { unfold image_id_map, image_pass.
    rewrite Z.add_comm.
    eapply (image_pass_map_position _ _ [] ∅ []); [done| |done|].
    - simpl. rewrite kept_images_filter. by apply NoDup_map_filter.
    - simpl. by rewrite kept_images_filter. }
  pose proof (renumber_anns_rel (image_id_map st small) 1
                (valid_annotations small (annotations st))) as Hrel.
  assert (Hav : a ∈ filter (fun a => is_Some (image_id_map st small !! ann_image_id a))
                          (valid_annotations small (annotations st))).
  { apply list_elem_of_filter. split; [|done]. rewrite Haid, Hm. eauto. }
  apply list_elem_of_lookup in Hav as [j Hj].
  destruct (Forall2_lookup_l _ _ _ _ _ Hrel Hj) as (a' & Hj' & _ & Ha').
  exists a'. split; [by eapply list_elem_of_lookup_2|].
  rewrite Haid, Hm in Ha'. by injection Ha'.
Qed.

Lemma quality_filter_drops_unreferenced_images_witness :
  Exists (fun a => bbox_area a < 25) (annotations store_with_small_box) /\
  NoDup (map img_id (images store_with_small_box)) /\
  map img_file_name (images (check_and_filter_small_boxes store_with_small_box 25))
    = ["a.jpg"%string] /\
  (forall img', img' ∈ images (check_and_filter_small_boxes store_with_small_box 25) ->
     exists a', a' ∈ annotations (check_and_filter_small_boxes store_with_small_box 25) /\
       ann_image_id a' = img_id img') /\
  Forall (fun a => 25 <= bbox_area a) (annotations store_with_unmatched_image) /\
  images (check_and_filter_small_boxes store_with_unmatched_image 25)
    = images store_with_unmatched_image.
Proof.
  assert (H1 : Exists (fun a => bbox_area a < 25) (annotations store_with_small_box))
    by (vm_compute; right; left; reflexivity).
  assert (H2 : NoDup (map img_id (images store_with_small_box)))
    by (vm_compute; repeat constructor; set_solver).
  assert (H3 : Forall (fun a => 25 <= bbox_area a) (annotations store_with_unmatched_image))
    by (vm_compute; repeat constructor; discriminate).
  split; [exact H1|]. split; [exact H2|].
  destruct (quality_filter_drops_unreferenced_images store_with_small_box 25) as [Hs _].
  destruct (Hs H1) as [_ Href].
  split; [vm_compute; reflexivity|]. split; [exact (Href H2)|]. split; [exact H3|].
  destruct (quality_filter_drops_unreferenced_images store_with_unmatched_image 25)
    as [_ Hn].
  exact (proj1 (Hn H3)).
Defined.

(** C2, as stated for every store, fails: with no annotation below the
    threshold the quality check returns early and the images keep their
    ids 0 and 1. *)
Lemma quality_filter_renumbering_counterexample :
  map img_id (images (check_and_filter_small_boxes store_with_unmatched_image 25)) = [0; 1] /\
  map img_id (images (check_and_filter_small_boxes store_with_unmatched_image 25))
    <> zseq 1 (length (images (check_and_filter_small_boxes store_with_unmatched_image 25))).
Proof. split; vm_compute; [reflexivity|discriminate]. Qed.

(** C3, as stated for every store, fails: the image [b.jpg] added by
    [include_unmatched_images] has no annotation and survives the quality
    check, which returns early because no annotation is below 25. *)
Lemma quality_filter_unmatched_image_counterexample :
  Exists (fun img => Forall (fun a => ann_image_id a <> img_id img)
                            (annotations (check_and_filter_small_boxes store_with_unmatched_image 25)))
         (images (check_and_filter_small_boxes store_with_unmatched_image 25)).
Proof. vm_compute. right. left. repeat constructor. discriminate. Qed.

(** *** The conversion pathway: invariants I1 and I2 *)

Lemma renumber_from_lookup_Some s l k i :
  l !! k = Some i -> renumber_from s l !! k = Some (set_img_id (s + Z.of_nat k) i).
Proof.
  revert s k. induction l as [|i0 l IH]; intros s [|k] H; simpl in H; try done.
  - injection H as <-. simpl. by rewrite Z.add_0_r.
  - simpl. rewrite (IH _ _ H). do 2 f_equal. lia.
Qed.

Lemma record_annotation_images c st nb :
  images (record_annotation c st nb) = images st.
Proof. destruct nb as [n b]. unfold record_annotation. by destruct (cat2id st !! n). Qed.

Lemma record_annotation_refs c st nb :
  c ∈ map img_id (images st) -> image_refs_ok st -> image_refs_ok (record_annotation c st nb).
Proof.
  intros Hc Hok. destruct nb as [n b]. unfold image_refs_ok, record_annotation.
  destruct (cat2id st !! n); simpl; apply Forall_app; split; auto.
Qed.

Lemma fold_record_images c boxes st :
  images (fold_left (record_annotation c) boxes st) = images st.
Proof.
  revert st. induction boxes as [|nb boxes IH]; intros st; simpl; [done|].
  by rewrite IH, record_annotation_images.
Qed.

Lemma fold_record_refs c boxes st :
  c ∈ map img_id (images st) -> image_refs_ok st ->
  image_refs_ok (fold_left (record_annotation c) boxes st).
Proof.
  revert st. induction boxes as [|nb boxes IH]; intros st Hc Hok; simpl; [done|].
  apply IH; [by rewrite record_annotation_images|by apply record_annotation_refs].
Qed.

Lemma append_image_refs st f w h :
  image_refs_ok st -> image_refs_ok (append_image st f w h).
Proof.
  unfold image_refs_ok, append_image. simpl. intros Hok.
  eapply Forall_impl; [exact Hok|]. intros a Ha.
  rewrite map_app, elem_of_app. by left.
Qed.

Lemma remove_small_boxes_refs st small thr :
  image_refs_ok (remove_small_boxes st small thr).
Proof.
  unfold image_refs_ok.
  rewrite remove_small_boxes_images, remove_small_boxes_annotations, kept_images_filter.
  apply Forall_forall. intros a' Ha'.
  apply list_elem_of_lookup in Ha' as [j Hj].
  destruct (Forall2_lookup_r _ _ _ _ _ (renumber_anns_rel (image_id_map st small) 1
              (valid_annotations small (annotations st))) Hj) as (a & _ & _ & Hm).
  apply image_id_map_origin in Hm as (img & Hk & _ & Hn).
  apply (renumber_from_lookup_Some 1) in Hk.
  apply list_elem_of_In, in_map_iff. eexists. split; [|by apply list_elem_of_In, (list_elem_of_lookup_2 _ _ _ Hk)].
  simpl. lia.
Qed.

Lemma check_and_filter_cases st thr :
  check_and_filter_small_boxes st thr = st \/
  exists small, check_and_filter_small_boxes st thr = remove_small_boxes st small thr.
Proof.
  unfold check_and_filter_small_boxes.
  destruct (annotations st); [by left|].
  destruct (collect_small_boxes thr _); [by left|]. right. eauto.
Qed.

(** The YOLO parser is one of the parsers whose effect on the store is a
    sequence of [record_annotation] steps. *)
Lemma process_yolo_file_records int_of float_of cm img_id img_w img_h st lines :
  exists boxes,
    process_yolo_file int_of float_of cm img_id img_w img_h st lines =
    fold_left (record_annotation img_id) boxes st.
Proof.
  revert st. induction lines as [|line lines IH]; intros st; simpl.
  - by exists [].
  - destruct (yolo_line int_of float_of cm img_w img_h line).
    + apply IH.
    + destruct (IH (record_annotation img_id st (name, b))) as [boxes Hb].
      exists ((name, b) :: boxes). exact Hb.
    + by exists [].
Qed.

Lemma sample_conversion_stage :
  conversion_stage (check_and_filter_small_boxes store_with_small_box 25)
    ([] ++ pair_names (Some ("a.jpg"%string, 100, 100))
                      [("cat"%string, mkBBox 0 0 10 10); ("cat"%string, mkBBox 5 5 2 2)]).
Proof.
  unfold store_with_small_box.
  apply stage_filter, stage_unmatched, stage_pair, stage_reset.
Qed.

(** C5: invariant I1.  In every store the conversion pathway goes through
    (after each file pair, after each unmatched image is added, after the
    quality filter), every annotation's [image_id] is the id of an image
    of the store. *)
Theorem image_refs_ok_at_every_stage (st : store) (hist : list string)
    (Hst : conversion_stage st hist) :
  image_refs_ok st.
Proof.
  induction Hst as [|st hist opened boxes _ IH|st hist opened _ IH|st hist thr _ IH].
  - constructor.
  - destruct opened as [[[f w] h]|]; simpl; [|done].
    apply fold_record_refs; [|by apply append_image_refs].
    simpl. rewrite map_app, elem_of_app. right. simpl. by left.
  - destruct opened as [[[f w] h]|]; simpl; [|done]. by apply append_image_refs.
  - destruct (check_and_filter_cases st thr) as [->|[small ->]]; [done|].
    apply remove_small_boxes_refs.
Qed.

Lemma image_refs_ok_at_every_stage_witness :
  conversion_stage (check_and_filter_small_boxes store_with_small_box 25)
    ([] ++ pair_names (Some ("a.jpg"%string, 100, 100))
                      [("cat"%string, mkBBox 0 0 10 10); ("cat"%string, mkBBox 5 5 2 2)]) /\
  image_refs_ok (check_and_filter_small_boxes store_with_small_box 25).
Proof.
  split; [exact sample_conversion_stage|].
  exact (image_refs_ok_at_every_stage _ _ sample_conversion_stage).
Defined.

Lemma elem_of_first_sight_aux (seen l : list string) x :
  x ∈ first_sight_aux seen l <-> x ∈ l /\ x ∉ seen.
Proof.
  revert seen. induction l as [|y l IH]; intros seen; simpl.
  - rewrite !elem_of_nil. tauto.
  - rewrite elem_of_cons. case_bool_decide as Hy.
    + rewrite IH. split; [tauto|]. intros [[->|?] ?]; [done|tauto].
    + rewrite elem_of_cons, IH, elem_of_app, list_elem_of_singleton.
      destruct (decide (x = y)) as [->|Hne]; tauto.
Qed.

Lemma elem_of_first_sight (l : list string) x : x ∈ first_sight l <-> x ∈ l.
Proof. unfold first_sight. rewrite elem_of_first_sight_aux, elem_of_nil. tauto. Qed.

Lemma first_sight_aux_snoc (seen l : list string) n :
  first_sight_aux seen (l ++ [n]) =
  first_sight_aux seen l ++ (if bool_decide (n ∈ seen ++ l) then [] else [n]).
Proof.
  revert seen. induction l as [|y l IH]; intros seen; simpl.
  - by rewrite app_nil_r.
  - case_bool_decide as Hy.
    + rewrite IH.
      assert (E : bool_decide (n ∈ seen ++ l) = bool_decide (n ∈ seen ++ y :: l)).
      { apply bool_decide_ext. rewrite !elem_of_app, elem_of_cons.
        split; [tauto|]. intros [?|[->|?]]; auto. }
      by rewrite E.
    + rewrite IH. replace ((seen ++ [y]) ++ l) with (seen ++ y :: l)
        by (by rewrite <- app_assoc). done.
Qed.

Lemma first_sight_snoc (l : list string) n :
  first_sight (l ++ [n]) = first_sight l ++ (if bool_decide (n ∈ l) then [] else [n]).
Proof. apply first_sight_aux_snoc. Qed.

Lemma categories_ok_fields st st' hist :
  categories st' = categories st -> cat2id st' = cat2id st -> cat_count st' = cat_count st ->
  categories_ok st hist -> categories_ok st' hist.
Proof. unfold categories_ok. intros -> -> ->. done. Qed.

Lemma cat_name_in_categories st hist n :
  categories_ok st hist -> n ∈ hist -> exists i, cat2id st !! n = Some i.
Proof.
  intros (Hnames & _ & _ & Hbij) Hn.
  apply elem_of_first_sight in Hn. rewrite <- Hnames in Hn.
  apply list_elem_of_In, in_map_iff in Hn as (c & <- & Hc).
  exists (cat_id c). apply Hbij. destruct c. by apply list_elem_of_In.
Qed.

Lemma record_annotation_categories c st hist n b :
  categories_ok st hist -> categories_ok (record_annotation c st (n, b)) (hist ++ [n]).
Proof.
  intros Hok. unfold record_annotation.
  destruct (cat2id st !! n) as [i|] eqn:Hn.
  - assert (Hin : n ∈ hist).
    { destruct Hok as (Hnames & _ & _ & Hbij). apply Hbij in Hn.
      apply elem_of_first_sight. rewrite <- Hnames.
      apply list_elem_of_In, in_map_iff. exists (mkCat i n). split; [done|].
      by apply list_elem_of_In. }
    destruct Hok as (Hnames & Hids & Hcount & Hbij).
    split; [|split; [|split]]; simpl; auto.
    rewrite first_sight_snoc, bool_decide_eq_true_2 by done. by rewrite app_nil_r.
  - assert (Hnin : n ∉ hist).
    { intros Hin. destruct (cat_name_in_categories st hist n Hok Hin) as [i Hi]. congruence. }
    destruct Hok as (Hnames & Hids & Hcount & Hbij).
    split; [|split; [|split]]; simpl.
    + rewrite map_app, first_sight_snoc, bool_decide_eq_false_2 by done.
      by rewrite Hnames.
    + rewrite map_app, length_app, Hids. simpl.
      rewrite Nat.add_1_r, zseq_app, Hcount. done.
    + rewrite length_app, Hcount. simpl. lia.
    + intros name j. rewrite elem_of_app, list_elem_of_singleton.
      destruct (decide (name = n)) as [->|Hne].
      * rewrite lookup_insert_eq. split.
        -- intros [= <-]. by right.
        -- intros [Hc|Hc]; [|by injection Hc as ->].
           apply Hbij in Hc. congruence.
      * rewrite lookup_insert_ne by congruence. rewrite Hbij.
        split; [by left|]. intros [?|Hc]; [done|]. by injection Hc.
Qed.

Lemma fold_record_categories c boxes st hist :
  categories_ok st hist ->
  categories_ok (fold_left (record_annotation c) boxes st) (hist ++ map fst boxes).
Proof.
  revert st hist. induction boxes as [|[n b] boxes IH]; intros st hist Hok; simpl.
  - by rewrite app_nil_r.
  - replace (hist ++ n :: map fst boxes) with ((hist ++ [n]) ++ map fst boxes)
      by (by rewrite <- app_assoc).
    apply IH. by apply record_annotation_categories.
Qed.

Lemma check_and_filter_category_fields st thr :
  let st' := check_and_filter_small_boxes st thr in
  categories st' = categories st /\ cat2id st' = cat2id st /\ cat_count st' = cat_count st.
Proof.
  cbv zeta. destruct (check_and_filter_cases st thr) as [->|[small ->]]; [done|].
  unfold remove_small_boxes. by destruct (image_pass st small).
Qed.

(** C6: invariant I2.  Whatever sequence of category names the parsers
    record (each of the five runs the same "ensure the category exists"
    block, [record_annotation]), the category names are the recorded names
    in order of first sight (so no name twice), their ids are 0..N-1 in
    that order, [cat_count] is N, and [cat2id] maps a name to an id exactly
    when the category list holds that (id, name) pair. *)
Theorem categories_ok_at_every_stage (st : store) (hist : list string)
    (Hst : conversion_stage st hist) :
  categories_ok st hist /\ NoDup (map cat_name (categories st)).
Proof.
  assert (Hok : categories_ok st hist).
  { induction Hst as [|st hist opened boxes _ IH|st hist opened _ IH|st hist thr _ IH].
    - split; [done|]. split; [done|]. split; [done|].
      intros name i. unfold reset. cbn [cat2id categories].
      rewrite lookup_empty, elem_of_nil. split; done.
    - destruct opened as [[[f w] h]|]; simpl; [|by rewrite app_nil_r].
      apply fold_record_categories. by eapply categories_ok_fields; [..|exact IH].
    - destruct opened as [[[f w] h]|]; simpl; [|done].
      by eapply categories_ok_fields; [..|exact IH].
    - destruct (check_and_filter_category_fields st thr) as (E1 & E2 & E3).
      by eapply categories_ok_fields; [..|exact IH]. }
  split; [done|]. destruct Hok as [-> _]. clear Hst.
  unfold first_sight. generalize (@nil string) as seen.
  induction hist as [|n hist IH]; intros seen; simpl; [constructor|].
  case_bool_decide as Hn; [auto|].
  constructor; [|auto]. rewrite elem_of_first_sight_aux, elem_of_app, list_elem_of_singleton.
  tauto.
Qed.

Lemma categories_ok_at_every_stage_witness :
  conversion_stage (check_and_filter_small_boxes store_with_small_box 25)
    ([] ++ pair_names (Some ("a.jpg"%string, 100, 100))
                      [("cat"%string, mkBBox 0 0 10 10); ("cat"%string, mkBBox 5 5 2 2)]) /\
  map cat_name (categories (check_and_filter_small_boxes store_with_small_box 25))
    = ["cat"%string].
Proof.
  split; [exact sample_conversion_stage|].
  destruct (categories_ok_at_every_stage _ _ sample_conversion_stage) as [[-> _] _].
  vm_compute. reflexivity.
Defined.

(** *** hk: deepest-tag category resolution *)

(** Induction on [hk_node] with a hypothesis for every child. *)
Definition hk_node_children_ind (P : hk_node -> Prop)
    (H : forall tag cs, Forall P cs -> P (HkNode tag cs)) : forall n, P n :=
  fix IH (n : hk_node) : P n :=
    match n with
    | HkNode tag cs =>
      H tag cs ((fix F (cs : list hk_node) : Forall P cs :=
                   match cs with
                   | [] => @List.Forall_nil _ P
                   | c :: cs' => @List.Forall_cons _ P c cs' (IH c) (F cs')
                   end) cs)
    end.

Lemma deepest_branches_eq (tag : option string) (cs : list hk_node) :
  Forall (fun c => find_deepest_tag c = deepest_tag_spec c) cs ->
  match List.filter (fun t => negb (String.eqb t "")) (map find_deepest_tag cs) with
  | t :: _ => t
  | [] => default "" tag
  end =
  (fix branches (cs : list hk_node) : string :=
     match cs with
     | [] => default "" tag
     | c :: cs' =>
       let t := deepest_tag_spec c in
       if String.eqb t "" then branches cs' else t
     end) cs.
Proof.
  induction 1 as [|c cs Hc _ IH]; [done|].
  simpl. rewrite Hc. destruct (String.eqb (deepest_tag_spec c) "") eqn:E; simpl.
  - exact IH.
  - done.
Qed.

(** C7: the hk category name is the deepest [tagName] found by a depth-first
    descent that takes the first child branch yielding a non-empty tag, and
    falls back to the node's own [tagName] when the node has no children or
    no branch yields one. *)
Theorem find_deepest_tag_first_branch (item : hk_node) :
  find_deepest_tag item = deepest_tag_spec item.
Proof.
  induction item as [tag cs Hcs] using hk_node_children_ind.
  destruct cs as [|c cs'].
  - done.
  - cbn [find_deepest_tag]. fold (map find_deepest_tag cs').
    rewrite (deepest_branches_eq tag (c :: cs') Hcs). done.
Qed.

(** *** FileMatcher *)

(** Two labelme files naming the same image [x.jpg]. *)
Definition same_image_json (ann_file : string) : option ann_json :=
  Some (mkAnnJson None "x.jpg" "").

(** C1 (code defect): the second annotation file that resolves to an image
    already matched passes the membership test against [image_files], is
    appended to [matched_pairs], and only then fails [unmatched_images.remove],
    whose [ValueError] is caught and appends it to [unmatched_annotations]:
    [x.jpg] ends up in two matched pairs and [b.json] in both lists. *)
Theorem match_files_same_image_twice :
  match_files ["a.json"; "b.json"]%string ["x.jpg"]%string Labelme same_image_json =
  Some ([("a.json", "x.jpg"); ("b.json", "x.jpg")]%string, ["b.json"%string], []).
Proof. vm_compute. reflexivity. Qed.

(** *** YOLO scenario *)

(** C4, as stated, fails: the line [0 0.5 0.5 0.2 0.4] on a 100x200 image
    does not give the bbox [40,30,20,80]. *)
Lemma yolo_scenario_counterexample :
  ~ (exists a, annotations yolo_scenario_store = [a] /\
               ann_bbox a = mkBBox 40 30 20 80 /\ ann_area a = 1600).
Proof.
  intros (a & Ha & Hb & _). vm_compute in Ha. injection Ha as <-. discriminate Hb.
Qed.

(** C4 (as corrected): the line gives exactly one annotation, bbox
    [40,60,20,80] ([y = int(0.5*200 - 0.4*200/2) = 60]) and area 1600, with
    category [class_0]. *)
Theorem yolo_scenario_bbox :
  annotations yolo_scenario_store = [mkAnn 0 0 0 (mkBBox 40 60 20 80) 1600] /\
  map cat_name (categories yolo_scenario_store) = ["class_0"%string].
Proof. split; vm_compute; reflexivity. Qed.

(** *** ImageCropper: expansion and bounds *)




(** *** PolygonRasterizer: line rejection *)

Lemma parse_all_length (float_of : string -> option float) l fs :
  parse_all float_of l = Some fs -> length fs = length l.
Proof.
  revert fs. induction l as [|t l IH]; intros fs H; simpl in H.
  - by injection H as <-.
  - destruct (float_of t), (parse_all float_of l) eqn:E; try done.
    injection H as <-. simpl. f_equal. auto.
Qed.

Lemma pixel_points_length (width height : Z) :
  forall coords pts, pixel_points width height coords = inl pts ->
  length coords = (2 * length pts)%nat.
Proof.
  fix IH 1. intros [|c1 [|c2 rest]] pts H; simpl in H.
  - by injection H as <-.
  - done.
  - destruct (py_round _) as [x|]; [|done].
    destruct (py_round _) as [y|]; [|done].
    destruct (pixel_points width height rest) as [pts'|] eqn:E; [|done].
    injection H as <-. apply IH in E. simpl. lia.
Qed.

Definition pixel_of (width height : Z) (c : float * float) (p : Z * Z) : Prop :=
  exists x y, py_round (PrimFloat.mul c.1 (float_of_Z width)) = inl x /\
              py_round (PrimFloat.mul c.2 (float_of_Z height)) = inl y /\
              p = (clamp_dim x width, clamp_dim y height).

Lemma pixel_points_rel (width height : Z) :
  forall coords pts, pixel_points width height coords = inl pts ->
  Forall2 (pixel_of width height) (coord_pairs coords) pts.
Proof.
  fix IH 1. intros [|c1 [|c2 rest]] pts H; simpl in H.
  - injection H as <-. constructor.
  - done.
  - destruct (py_round (PrimFloat.mul c1 (float_of_Z width))) as [x|] eqn:Ex; [|done].
    destruct (py_round (PrimFloat.mul c2 (float_of_Z height))) as [y|] eqn:Ey; [|done].
    destruct (pixel_points width height rest) as [pts'|] eqn:E; [|done].
    injection H as <-. simpl. constructor; [|by apply IH].
    exists x, y. auto.
Qed.




Lemma mask_line_unfold int_of float_of max_cls width height line :
  mask_line int_of float_of max_cls width height line =
  if (length (py_split line) <? 7)%nat || Nat.even (length (py_split line)) then MaskSkip
  else
    match py_split line with
    | [] => MaskSkip
    | p0 :: rest =>
      match int_of p0, parse_all float_of rest with
      | Some cls, Some coords =>
        match pixel_points width height coords with
        | inr _ => MaskFail
        | inl pts => if (cls <? 0) || (max_cls <? cls) then MaskSkip else MaskDraw (cls + 1) pts
        end
      | _, _ => MaskSkip
      end
    end.
Proof.
  unfold mask_line, parse_polygon_line.
  destruct ((length (py_split line) <? 7)%nat || Nat.even (length (py_split line))) eqn:Hs;
    [done|].
  apply orb_false_iff in Hs as [Hlt Hev]. apply Nat.ltb_ge in Hlt.
  destruct (py_split line) as [|p0 rest]; [done|].
  destruct (int_of p0) as [cls|], (parse_all float_of rest) as [coords|] eqn:Hp; try done.
  destruct (pixel_points width height coords) as [pts|e] eqn:Hpx; [|done].
  apply pixel_points_length in Hpx. apply parse_all_length in Hp. simpl in Hlt.
  replace ((length pts <? 3)%nat) with false by (symmetry; apply Nat.ltb_ge; lia).
  done.
Qed.




Lemma clamp_dim_bounds v dim : 1 <= dim -> 0 <= clamp_dim v dim <= dim - 1.
Proof. unfold clamp_dim. lia. Qed.



(** ** Further properties of the code *)

(** *** QualityFilter *)

Lemma small_box_ids_cover thr (anns : list annotation) a :
  a ∈ anns -> bbox_area a < thr ->
  ann_id a ∈ map sb_id (collect_small_boxes thr anns).
Proof.
  intros Hin Hlt. rewrite collect_small_boxes_eq, map_map. simpl.
  apply list_elem_of_In, in_map_iff. exists a. split; [done|].
  apply filter_In. split; [by apply list_elem_of_In|]. by apply Z.ltb_lt.
Qed.

(** After the quality check, whichever path it takes, no annotation of the
    store has width times height below the threshold. *)
Theorem quality_check_leaves_no_small_box (st : store) (area_threshold : Z) :
  Forall (fun a => area_threshold <= bbox_area a)
         (annotations (check_and_filter_small_boxes st area_threshold)).
Proof.
  destruct (collect_small_boxes area_threshold (annotations st)) as [|sb sbs] eqn:Ec.
  - apply collect_small_boxes_nil in Ec as Hall.
    unfold check_and_filter_small_boxes. rewrite Ec.
    destruct (annotations st) eqn:Ea; rewrite Ea; exact Hall.
  - unfold check_and_filter_small_boxes. rewrite Ec.
    destruct (annotations st) as [|a0 l0] eqn:Ea; [rewrite Ea; constructor|].
    rewrite <- Ec, remove_small_boxes_annotations.
    apply Forall_forall. intros a' Ha'.
    apply list_elem_of_lookup in Ha' as [j Hj].
    destruct (Forall2_lookup_r _ _ _ _ _ (renumber_anns_rel _ 1 _) Hj)
      as (a & Hja & Heq & _).
    rewrite Heq. cbn [bbox_area set_ann_ids ann_bbox].
    apply list_elem_of_lookup_2, list_elem_of_filter in Hja as [_ Hav].
    unfold valid_annotations in Hav. apply list_elem_of_filter in Hav as [Hnot Hin].
    destruct (Z.le_gt_cases area_threshold (bb_w (ann_bbox a) * bb_h (ann_bbox a)))
      as [Hge|Hlt]; [exact Hge|exfalso].
    apply Hnot, elem_of_list_to_set.
    apply small_box_ids_cover; [by rewrite <- Ea|unfold bbox_area; lia].
Qed.

(** *** ImageCropper *)

(** With a ratio other than 1.0, the box [_apply_expansion_and_bounds]
    returns for a box of [int]s (what the coco_single, voc, yolo and labelme
    parsers give) holds [int]s, starts at non-negative coordinates and ends
    at or before the right and bottom edges of the image. *)
Theorem expansion_stays_inside_image (bx by' bw bh img_w img_h : Z) (r : float)
    (x y w h : pynum)
    (Hr : PrimFloat.eqb r 1%float = false)
    (Hres : apply_expansion_and_bounds (PInt bx, PInt by', PInt bw, PInt bh) img_w img_h r
            = inl (x, y, w, h)) :
  exists x' y' w' h', x = PInt x' /\ y = PInt y' /\ w = PInt w' /\ h = PInt h' /\
    0 <= x' /\ 0 <= y' /\ x' + w' <= img_w /\ y' + h' <= img_h.
Proof.
  unfold apply_expansion_and_bounds in Hres. rewrite Hr in Hres.
  destruct (scaled_size (PInt bw) r) as [nw|]; [|discriminate].
  destruct (scaled_size (PInt bh) r) as [nh|]; [|discriminate].
  cbn [py_bind py_add py_sub py_arith py_floordiv2 py_lt] in Hres.
  repeat (match type of Hres with context [Z.ltb ?a ?b] => destruct (Z.ltb_spec a b) end;
          cbn [py_bind py_add py_sub py_arith] in Hres);
    injection Hres as <- <- <- <-; eexists _, _, _, _;
    (split; [reflexivity|]); (split; [reflexivity|]); (split; [reflexivity|]);
    (split; [reflexivity|]); lia.
Qed.

Lemma expansion_stays_inside_image_witness :
  PrimFloat.eqb 2%float 1%float = false /\
  apply_expansion_and_bounds (PInt 90, PInt 10, PInt 20, PInt 20) 100 100 2%float
    = inl (PInt 80, PInt 0, PInt 20, PInt 40) /\
  exists x' y' w' h', PInt 80 = PInt x' /\ PInt 0 = PInt y' /\ PInt 20 = PInt w' /\
    PInt 40 = PInt h' /\ 0 <= x' /\ 0 <= y' /\ x' + w' <= 100 /\ y' + h' <= 100.
Proof.
  assert (Hr : PrimFloat.eqb 2%float 1%float = false) by reflexivity.
  assert (Hres : apply_expansion_and_bounds (PInt 90, PInt 10, PInt 20, PInt 20) 100 100 2%float
                 = inl (PInt 80, PInt 0, PInt 20, PInt 40)) by (vm_compute; reflexivity).
  split; [exact Hr|]. split; [exact Hres|].
  exact (expansion_stays_inside_image _ _ _ _ _ _ _ _ _ _ _ Hr Hres).
Defined.

(** *** PolygonRasterizer *)

Lemma mask_line_draw_facts int_of float_of max_cls width height line g pts :
  mask_line int_of float_of max_cls width height line = MaskDraw g pts ->
  1 <= g <= max_cls + 1 /\ (3 <= length pts)%nat /\
  (1 <= width -> 1 <= height ->
   Forall (fun p => 0 <= p.1 <= width - 1 /\ 0 <= p.2 <= height - 1) pts).
Proof.
  rewrite mask_line_unfold. intros Hm.
  destruct ((length (py_split line) <? 7)%nat || Nat.even (length (py_split line))) eqn:Hs;
    [done|].
  apply orb_false_iff in Hs as [Hlt _]. apply Nat.ltb_ge in Hlt.
  destruct (py_split line) as [|p0 rest]; [done|].
  destruct (int_of p0) as [cls|]; [|done].
  destruct (parse_all float_of rest) as [coords|] eqn:Hp; [|done].
  destruct (pixel_points width height coords) as [pts'|] eqn:Hpx; [|done].
  destruct ((cls <? 0) || (max_cls <? cls)) eqn:Hr; [done|].
  injection Hm as <- <-. apply orb_false_iff in Hr as [Hr1 Hr2].
  apply Z.ltb_ge in Hr1, Hr2.
  split; [lia|]. split.
  - apply pixel_points_length in Hpx. apply parse_all_length in Hp. simpl in Hlt. lia.
  - intros Hw Hh. apply pixel_points_rel in Hpx.
    clear -Hpx Hw Hh. induction Hpx as [|c p cs ps (x & y & _ & _ & ->) _ IH];
      constructor; auto.
    simpl. split; by apply clamp_dim_bounds.
Qed.

(** Every polygon a mask file is painted with (when the file succeeds) has a
    fill value in [1, max_cls + 1] (1..255 with the default 254, so it fits
    the 8-bit mask), at least 3 vertices, and every vertex inside the image. *)
Theorem txt_to_mask_polygons_valid (int_of : string -> option Z)
    (float_of : string -> option float) (max_cls width height : Z)
    (lines : list string) (ps : list (Z * list (Z * Z)))
    (H : txt_to_mask_polygons int_of float_of max_cls width height lines = Some ps)
    (Hw : 1 <= width) (Hh : 1 <= height) :
  Forall (fun gp => 1 <= gp.1 <= max_cls + 1 /\ (3 <= length gp.2)%nat /\
                    Forall (fun p => 0 <= p.1 <= width - 1 /\ 0 <= p.2 <= height - 1) gp.2)
         ps.
Proof.
  revert ps H. induction lines as [|line lines IH]; intros ps H; simpl in H.
  - injection H as <-. constructor.
  - destruct (mask_line int_of float_of max_cls width height line) as [|g pts|] eqn:Hm.
    + auto.
    + destruct (txt_to_mask_polygons int_of float_of max_cls width height lines)
        as [ps'|]; [|done].
      injection H as <-. apply mask_line_draw_facts in Hm as (Hg & Hlen & Hin).
      constructor; [simpl; auto|]. auto.
    + done.
Qed.

Lemma txt_to_mask_polygons_valid_witness :
  txt_to_mask_polygons dec_int dec_float 254 100 50 sample_mask_lines
    = Some [(1, [(10, 5); (90, 5); (50, 40)]); (3, [(0, 0); (99, 0); (50, 49)])] /\
  Forall (fun gp => 1 <= gp.1 <= 255 /\ (3 <= length gp.2)%nat /\
                    Forall (fun p => 0 <= p.1 <= 99 /\ 0 <= p.2 <= 49) gp.2)
    [(1, [(10, 5); (90, 5); (50, 40)]); (3, [(0, 0); (99, 0); (50, 49)])].
Proof.
  assert (H : txt_to_mask_polygons dec_int dec_float 254 100 50 sample_mask_lines
    = Some [(1, [(10, 5); (90, 5); (50, 40)]); (3, [(0, 0); (99, 0); (50, 49)])])
    by (vm_compute; reflexivity).
  split; [exact H|].
  exact (txt_to_mask_polygons_valid dec_int dec_float 254 100 50 _ _ H
           ltac:(lia) ltac:(lia)).
Defined.

(** *** Identifiers of the saved COCO data *)

Lemma fold_left_invariant {A B} (P : A -> Prop) (f : A -> B -> A) (l : list B) (a : A) :
  P a -> (forall a b, P a -> P (f a b)) -> P (fold_left f l a).
Proof. revert a. induction l as [|b l IH]; intros a Ha Hf; simpl; auto. Qed.

Lemma record_annotation_ids c st nb :
  ids_from_zero st -> ids_from_zero (record_annotation c st nb).
Proof.
  destruct nb as [n b]. unfold ids_from_zero, record_annotation.
  intros (Hi & Hic & Ha & Hac).
  destruct (cat2id st !! n); cbn [images annotations img_count ann_count];
    rewrite length_app, Nat.add_1_r, zseq_app, map_app, Ha; simpl;
    (split; [done|split; [done|split; [do 2 f_equal; lia|lia]]]).
Qed.

Lemma append_image_ids st f w h :
  ids_from_zero st -> ids_from_zero (append_image st f w h).
Proof.
  unfold ids_from_zero, append_image. intros (Hi & Hic & Ha & Hac).
  cbn [images annotations img_count ann_count].
  rewrite length_app, Nat.add_1_r, zseq_app, map_app, Hi. simpl.
  split; [do 2 f_equal; lia|]. split; [lia|]. auto.
Qed.

Lemma process_file_pair_ids st opened boxes :
  ids_from_zero st -> ids_from_zero (process_file_pair st opened boxes).
Proof.
  intros H. destruct opened as [[[f w] h]|]; simpl; [|done].
  apply fold_left_invariant; [by apply append_image_ids|].
  intros. by apply record_annotation_ids.
Qed.

Lemma add_unmatched_image_ids st opened :
  ids_from_zero st -> ids_from_zero (add_unmatched_image st opened).
Proof.
  intros H. destruct opened as [[[f w] h]|]; simpl; [|done]. by apply append_image_ids.
Qed.

Lemma coco_store_before_check_ids matched_pairs unmatched_images open_image parse
    include_unmatched_images :
  ids_from_zero (coco_store_before_check matched_pairs unmatched_images open_image parse
                   include_unmatched_images).
Proof.
  unfold coco_store_before_check.
  assert (Hb : ids_from_zero (fold_left (fun st '(ann_file, img_file) =>
                  process_file_pair st
                    match open_image img_file with
                    | Some (w, h) => Some (img_file, w, h)
                    | None => None
                    end
                    match open_image img_file with
                    | Some (w, h) => parse ann_file w h
                    | None => []
                    end) matched_pairs reset)).
  { apply fold_left_invariant.
    - unfold ids_from_zero. simpl. repeat split.
    - intros s0 [af imf] Hs0. by apply process_file_pair_ids. }
  destruct include_unmatched_images; [|exact Hb].
  apply fold_left_invariant; [exact Hb|].
  intros s0 f Hs0. by apply add_unmatched_image_ids.
Qed.

Lemma renumber_anns_length m s l : (length (renumber_anns m s l) <= length l)%nat.
Proof.
  revert s. induction l as [|a l IH]; intros s; simpl; [lia|].
  pose proof (IH (s + 1)). pose proof (IH s).
  destruct (m !! ann_image_id a); simpl; lia.
Qed.

Lemma filter_length_lt {A} (P : A -> Prop) `{!forall x, Decision (P x)} (l : list A) (a : A) :
  a ∈ l -> ~ P a -> (length (filter P l) < length l)%nat.
Proof.
  induction l as [|x l IH]; intros Ha HP; [by apply elem_of_nil in Ha|].
  pose proof (length_filter P l).
  apply elem_of_cons in Ha as [->|Ha].
  - rewrite filter_cons_False by done. simpl. lia.
  - destruct (decide (P x)); [rewrite filter_cons_True by done|rewrite filter_cons_False by done];
      simpl; specialize (IH Ha HP); lia.
Qed.

(** In the data [convert_to_coco] saves, the image ids and the annotation
    ids are 0, 1, 2, ... in list order when no annotation of the store it
    built is below the threshold (the quality check returns early), and
    1, 2, 3, ... when one is, in which case the check removed at least one
    annotation; so within each list the ids are distinct, and both lists
    use the same starting value. *)
Theorem convert_to_coco_ids_contiguous (annotation_listing image_listing : list string)
    (fmt : format) (read : string -> option ann_json)
    (open_image : string -> option (Z * Z))
    (parse : string -> Z -> Z -> list (string * bbox))
    (include_unmatched_images : bool) (area_threshold : Z)
    (matched_pairs : list (string * string))
    (unmatched_annotations unmatched_images : list string) (st : store)
    (Hmatch : match_files annotation_listing image_listing fmt read
              = Some (matched_pairs, unmatched_annotations, unmatched_images))
    (Hconv : convert_to_coco annotation_listing image_listing fmt read open_image parse
               include_unmatched_images area_threshold = Some (Some st)) :
  let built := coco_store_before_check matched_pairs unmatched_images open_image parse
                 include_unmatched_images in
  (Forall (fun a => area_threshold <= bbox_area a) (annotations built) ->
   map img_id (images st) = zseq 0 (length (images st)) /\
   map ann_id (annotations st) = zseq 0 (length (annotations st))) /\
  (Exists (fun a => bbox_area a < area_threshold) (annotations built) ->
   map img_id (images st) = zseq 1 (length (images st)) /\
   map ann_id (annotations st) = zseq 1 (length (annotations st)) /\
   (length (annotations st) < length (annotations built))%nat).
Proof.
  cbv zeta. unfold convert_to_coco in Hconv. rewrite Hmatch in Hconv.
  destruct matched_pairs as [|p mp']; [discriminate|].
  injection Hconv as <-.
  set (st0 := coco_store_before_check (p :: mp') unmatched_images open_image parse
                include_unmatched_images).
  pose proof (coco_store_before_check_ids (p :: mp') unmatched_images open_image parse
                include_unmatched_images) as H0. fold st0 in H0.
  split.
  - intros Hnone. rewrite check_and_filter_no_small_box by done.
    destruct H0 as (Hi & _ & Ha & _). auto.
  - intros Hsmall. rewrite check_and_filter_remove by done.
    rewrite remove_small_boxes_images, remove_small_boxes_annotations.
    split; [by rewrite renumber_from_ids, renumber_from_length|].
    split; [apply renumber_anns_ids|].
    apply Exists_exists in Hsmall as (a & Ha & Hlt).
    eapply Nat.le_lt_trans; [apply renumber_anns_length|].
    unfold valid_annotations. apply (filter_length_lt _ _ a Ha).
    intros Hn. apply Hn. apply elem_of_list_to_set.
    by apply small_box_ids_cover.
Qed.

Lemma convert_to_coco_ids_contiguous_witness :
  match_files ["a.txt"; "classes.txt"] ["a.jpg"; "b.jpg"] Yolo (fun _ => None)
    = Some ([("a.txt", "a.jpg")], [], ["b.jpg"]) /\
  sample_convert = Some (Some sample_converted_store) /\
  Exists (fun a => bbox_area a < 25)
    (annotations (coco_store_before_check [("a.txt", "a.jpg")] ["b.jpg"]
                    (fun _ => Some (100, 100))
                    (fun _ _ _ => [("cat", mkBBox 0 0 10 10); ("cat", mkBBox 5 5 2 2)])
                    true)) /\
  map img_id (images sample_converted_store) = [1] /\
  map ann_id (annotations sample_converted_store) = [1].
Proof.
  assert (Hm : match_files ["a.txt"; "classes.txt"] ["a.jpg"; "b.jpg"] Yolo (fun _ => None)
               = Some ([("a.txt", "a.jpg")], [], ["b.jpg"]))
    by (vm_compute; reflexivity).
  assert (H : sample_convert = Some (Some sample_converted_store))
    by (vm_compute; reflexivity).
  assert (Hs : Exists (fun a => bbox_area a < 25)
    (annotations (coco_store_before_check [("a.txt", "a.jpg")] ["b.jpg"]
                    (fun _ => Some (100, 100))
                    (fun _ _ _ => [("cat", mkBBox 0 0 10 10); ("cat", mkBBox 5 5 2 2)])
                    true))) by (vm_compute; right; left; reflexivity).
  split; [exact Hm|]. split; [exact H|]. split; [exact Hs|].
  destruct (convert_to_coco_ids_contiguous _ _ _ _ _ _ _ _ _ _ _ _ Hm H) as [_ H1].
  destruct (H1 Hs) as (Hi & Ha & _).
  rewrite Hi, Ha. split; vm_compute; reflexivity.
Defined.

(** *** Strings as lists of characters *)

Lemma las_app (s1 s2 : string) :
  list_ascii_of_string (s1 ++ s2) = list_ascii_of_string s1 ++ list_ascii_of_string s2.
Proof. induction s1 as [|c s1 IH]; simpl; [done|by rewrite IH]. Qed.

Lemma las_length (s : string) : String.length s = length (list_ascii_of_string s).
Proof. induction s as [|c s IH]; simpl; auto. Qed.

Lemma las_inj (s1 s2 : string) :
  list_ascii_of_string s1 = list_ascii_of_string s2 -> s1 = s2.
Proof.
  intros H. rewrite <- (string_of_list_ascii_of_string s1), <- (string_of_list_ascii_of_string s2).
  by rewrite H.
Qed.

Lemma las_sola (l : list ascii) : list_ascii_of_string (string_of_list_ascii l) = l.
Proof. apply list_ascii_of_string_of_list_ascii. Qed.

Lemma get_las (n : nat) (s : string) : String.get n s = list_ascii_of_string s !! n.
Proof. revert n. induction s as [|c s IH]; intros [|n]; simpl; auto. Qed.

Lemma substring_las (n m : nat) (s : string) :
  substring n m s = string_of_list_ascii (take m (drop n (list_ascii_of_string s))).
Proof.
  revert n m. induction s as [|c s IH]; intros [|n] [|m]; simpl; auto.
  - by rewrite IH, drop_0.
Qed.

Lemma lower_las (s : string) :
  list_ascii_of_string (lower s) = map ascii_lower (list_ascii_of_string s).
Proof. induction s as [|c s IH]; simpl; [done|by rewrite IH]. Qed.

Lemma rfind_aux_app (c : ascii) (s1 s2 : string) (i best : Z) :
  rfind_aux c (s1 ++ s2) i best =
  rfind_aux c s2 (i + Z.of_nat (String.length s1)) (rfind_aux c s1 i best).
Proof.
  revert i best. induction s1 as [|d s1 IH]; intros i best; simpl.
  - by rewrite Z.add_0_r.
  - rewrite IH. f_equal. lia.
Qed.

Lemma rfind_aux_notin (c : ascii) (s : string) (i best : Z) :
  c ∉ list_ascii_of_string s -> rfind_aux c s i best = best.
Proof.
  revert i best. induction s as [|d s IH]; intros i best Hc; simpl; [done|].
  simpl in Hc. rewrite elem_of_cons in Hc.
  destruct (Ascii.eqb_spec c d); [tauto|]. apply IH. tauto.
Qed.

Lemma rfind_aux_lt (c : ascii) (s : string) (i best : Z) :
  best < i -> rfind_aux c s i best < i + Z.of_nat (String.length s).
Proof.
  revert i best. induction s as [|d s IH]; intros i best Hb; simpl; [lia|].
  assert (H := IH (i + 1) (if Ascii.eqb c d then i else best)
                 ltac:(destruct (Ascii.eqb c d); lia)). lia.
Qed.

Lemma rfind_aux_ge (c : ascii) (s : string) (i best : Z) :
  best <= rfind_aux c s i best \/ i <= rfind_aux c s i best.
Proof.
  revert i best. induction s as [|d s IH]; intros i best; simpl; [lia|].
  destruct (IH (i + 1) (if Ascii.eqb c d then i else best));
    destruct (Ascii.eqb c d); lia.
Qed.

Lemma rfind_aux_hit (c : ascii) (s : string) (i best : Z) :
  rfind_aux c s i best = best \/
  (i <= rfind_aux c s i best /\
   list_ascii_of_string s !! Z.to_nat (rfind_aux c s i best - i) = Some c).
Proof.
  revert i best. induction s as [|d s IH]; intros i best; simpl; [by left|].
  destruct (IH (i + 1) (if Ascii.eqb c d then i else best)) as [E|[Hle Hget]].
  - rewrite E. destruct (Ascii.eqb_spec c d) as [<-|]; [right|by left].
    split; [lia|]. by rewrite Z.sub_diag.
  - right. split; [lia|].
    replace (Z.to_nat (rfind_aux c s (i + 1) (if Ascii.eqb c d then i else best) - i))
      with (S (Z.to_nat (rfind_aux c s (i + 1) (if Ascii.eqb c d then i else best) - (i + 1))))
      by lia.
    exact Hget.
Qed.

Lemma rfind_bounds (c : ascii) (s : string) :
  -1 <= rfind c s < Z.of_nat (String.length s).
Proof.
  unfold rfind. split.
  - destruct (rfind_aux_ge c s 0 (-1)); lia.
  - pose proof (rfind_aux_lt c s 0 (-1) ltac:(lia)). lia.
Qed.

Lemma rfind_found (c : ascii) (s : string) :
  0 <= rfind c s -> list_ascii_of_string s !! Z.to_nat (rfind c s) = Some c.
Proof.
  unfold rfind. intros H. destruct (rfind_aux_hit c s 0 (-1)) as [E|[_ Hget]]; [lia|].
  by rewrite Z.sub_0_r in Hget.
Qed.

Lemma take_drop_string (n : nat) (s : string) :
  (n <= String.length s)%nat ->
  (substring 0 n s ++ substring n (String.length s - n) s)%string = s.
Proof.
  intros Hn. apply las_inj. rewrite las_app, !substring_las, !las_sola, drop_0.
  rewrite las_length in Hn |- *.
  rewrite (take_ge (drop n _)) by (rewrite length_drop; lia). apply take_drop.
Qed.

Lemma char_at_app_l (b e : string) (i : Z) :
  0 <= i < Z.of_nat (String.length b) -> char_at (b ++ e) i = char_at b i.
Proof.
  intros Hi. unfold char_at. rewrite !get_las, las_app.
  rewrite lookup_app_l; [done|]. rewrite <- las_length. lia.
Qed.

Lemma endswith_spec (s suffix : string) :
  endswith s suffix = true <-> exists p, s = (p ++ suffix)%string.
Proof.
  unfold endswith. rewrite andb_true_iff, Nat.leb_le, String.eqb_eq. split.
  - intros [Hle Hsub]. rewrite substring_las in Hsub.
    apply (f_equal list_ascii_of_string) in Hsub. rewrite las_sola in Hsub.
    rewrite take_ge in Hsub by (rewrite length_drop, <- !las_length; lia).
    exists (string_of_list_ascii (take (String.length s - String.length suffix)
                                        (list_ascii_of_string s))).
    apply las_inj. rewrite las_app, las_sola, <- Hsub.
    symmetry. apply take_drop.
  - intros [p ->]. rewrite !las_length, las_app, length_app. split; [lia|].
    rewrite substring_las, las_app, Nat.add_sub.
    rewrite drop_app_length, take_ge by lia. apply string_of_list_ascii_of_string.
Qed.

(** *** splitext *)

Lemma splitext_split (p : string) :
  splitext p = (p, "") \/
  (0 <= rfind "."%char p /\
   splitext p = (substring 0 (Z.to_nat (rfind "."%char p)) p,
                 substring (Z.to_nat (rfind "."%char p))
                           (String.length p - Z.to_nat (rfind "."%char p)) p)).
Proof.
  unfold splitext.
  destruct (rfind "/"%char p <? rfind "."%char p) eqn:Hlt; [|by left].
  destruct (existsb _ _); [right|by left].
  split; [|done]. pose proof (rfind_bounds "/"%char p). apply Z.ltb_lt in Hlt. lia.
Qed.

(** [os.path.splitext] loses nothing: the root followed by the extension is
    the name, and the extension is empty or starts with a dot. *)
Lemma splitext_root_ext (p : string) :
  ((splitext p).1 ++ (splitext p).2)%string = p /\
  ((splitext p).2 = "" \/ exists rest, (splitext p).2 = String "."%char rest).
Proof.
  destruct (splitext_split p) as [->|[Hge ->]]; simpl.
  - split; [|by left]. apply las_inj. by rewrite las_app, app_nil_r.
  - pose proof (rfind_bounds "."%char p) as Hb.
    split; [apply take_drop_string; lia|right].
    pose proof (rfind_found "."%char p Hge) as Hdot.
    rewrite substring_las.
    rewrite (drop_S _ _ _ Hdot). simpl.
    destruct (String.length p - Z.to_nat (rfind "."%char p))%nat as [|k] eqn:Ek; [lia|].
    simpl. eauto.
Qed.

Lemma existsb_ext_in {A} (f g : A -> bool) (l : list A) :
  (forall x, In x l -> f x = g x) -> existsb f l = existsb g l.
Proof.
  induction l as [|x l IH]; intros H; simpl; [done|].
  rewrite H by (left; done). f_equal. apply IH. intros y Hy. apply H. by right.
Qed.

Lemma substring_app_l (b e : string) :
  substring 0 (String.length b) (b ++ e) = b.
Proof.
  apply las_inj. rewrite substring_las, las_sola, drop_0, las_app, las_length.
  by rewrite take_app_length.
Qed.

Lemma substring_app_r (b e : string) :
  substring (String.length b) (String.length (b ++ e) - String.length b) (b ++ e) = e.
Proof.
  apply las_inj. rewrite substring_las, las_sola, !las_length, las_app, length_app.
  rewrite drop_app_length, take_ge by lia. done.
Qed.

(** A name [b] followed by an extension without separators or further dots
    splits there, unless the last component of [b] is dots only. *)
Lemma splitext_app_ext (b rest : string) :
  "/"%char ∉ list_ascii_of_string rest -> "."%char ∉ list_ascii_of_string rest ->
  splitext (b ++ String "."%char rest) =
  if last_part_has_non_dot b then (b, String "."%char rest)
  else ((b ++ String "."%char rest)%string, "").
Proof.
  intros Hsl Hdt. unfold splitext, last_part_has_non_dot.
  assert (Hsep : rfind "/"%char (b ++ String "."%char rest) = rfind "/"%char b).
  { unfold rfind. rewrite rfind_aux_app. apply rfind_aux_notin. simpl.
    rewrite elem_of_cons. intros [H|H]; [discriminate|tauto]. }
  assert (Hdot : rfind "."%char (b ++ String "."%char rest) = Z.of_nat (String.length b)).
  { unfold rfind. rewrite rfind_aux_app. simpl. by apply rfind_aux_notin. }
  rewrite Hsep, Hdot. pose proof (rfind_bounds "/"%char b) as Hb.
  replace (rfind "/"%char b <? Z.of_nat (String.length b)) with true
    by (symmetry; apply Z.ltb_lt; lia).
  rewrite (existsb_ext_in _ (fun i => negb (Ascii.eqb (char_at b i) "."%char))).
  2:{ intros i Hi. apply in_map_iff in Hi as [k [<- Hk]]. apply in_seq in Hk.
      rewrite char_at_app_l; [done|lia]. }
  destruct (existsb _ _); [|done].
  rewrite Nat2Z.id. f_equal; [apply substring_app_l|apply substring_app_r].
Qed.

(** Appending text without separators whose last character is not a dot
    gives a last component that is not dots only. *)
Lemma last_part_app (b x : string) (c : ascii) :
  "/"%char ∉ list_ascii_of_string x -> "/"%char <> c -> c <> "."%char ->
  last_part_has_non_dot (b ++ x ++ String c EmptyString) = true.
Proof.
  intros Hx Hc Hcd. unfold last_part_has_non_dot.
  assert (Hsep : rfind "/"%char (b ++ x ++ String c EmptyString) = rfind "/"%char b).
  { unfold rfind. rewrite rfind_aux_app. apply rfind_aux_notin.
    rewrite las_app. simpl. rewrite elem_of_app, list_elem_of_singleton. tauto. }
  rewrite Hsep. pose proof (rfind_bounds "/"%char b) as Hb.
  set (L := String.length (b ++ x ++ String c EmptyString)).
  assert (HL : L = (String.length b + String.length x + 1)%nat).
  { subst L. rewrite !las_length, !las_app, !length_app. simpl. lia. }
  apply existsb_exists. exists (Z.of_nat L - 1). split.
  - apply in_map_iff. exists (Z.to_nat (Z.of_nat L - 1 - (rfind "/"%char b + 1))).
    split; [lia|]. apply in_seq. lia.
  - unfold char_at. rewrite get_las, !las_app.
    rewrite lookup_app_r by (rewrite <- las_length; lia).
    rewrite lookup_app_r by (rewrite <- !las_length; lia).
    rewrite <- !las_length.
    replace (Z.to_nat (Z.of_nat L - 1) - String.length b - String.length x)%nat with 0%nat
      by lia.
    simpl. apply negb_true_iff. by apply Ascii.eqb_neq.
Qed.

(** The endings [.json], [.txt] and [.xml] exclude each other. *)
Lemma endswith_json_not_txt_xml (f : string) :
  endswith f ".json" = true -> endswith f ".txt" = false /\ endswith f ".xml" = false.
Proof.
  intros Hj. apply endswith_spec in Hj as [p ->].
  split; apply not_true_iff_false; intros H; apply endswith_spec in H as [q Hq];
    apply (f_equal list_ascii_of_string) in Hq; rewrite !las_app in Hq;
    apply (f_equal (@rev ascii)) in Hq; rewrite !rev_app_distr in Hq;
    simpl in Hq; congruence.
Qed.

(** *** match_files: every file accounted for *)

Lemma mem_spec (x : string) (l : list string) : mem x l = true <-> x ∈ l.
Proof.
  unfold mem. rewrite existsb_exists, list_elem_of_In. split.
  - intros [y [Hy E]]. apply String.eqb_eq in E. by subst.
  - intros Hx. exists x. split; [done|]. apply String.eqb_refl.
Qed.

Lemma remove_first_some (x : string) (l l' : list string) :
  remove_first x l = Some l' -> exists l1 l2, l = l1 ++ x :: l2 /\ l' = l1 ++ l2.
Proof.
  revert l'. induction l as [|y l IH]; intros l' H; simpl in H; [discriminate|].
  destruct (String.eqb_spec x y) as [<-|Hne].
  - injection H as <-. by exists [], l.
  - destruct (remove_first x l) as [r|] eqn:E; [|discriminate]. injection H as <-.
    destruct (IH r eq_refl) as (l1 & l2 & -> & ->). by exists (y :: l1), l2.
Qed.

Lemma remove_first_none (x : string) (l : list string) :
  remove_first x l = None -> x ∉ l.
Proof.
  induction l as [|y l IH]; simpl; intros H.
  - apply not_elem_of_nil.
  - destruct (String.eqb_spec x y); [discriminate|].
    destruct (remove_first x l); [discriminate|]. rewrite elem_of_cons.
    specialize (IH eq_refl). tauto.
Qed.

Lemma remove_first_in (x : string) (l : list string) :
  x ∈ l -> exists l', remove_first x l = Some l'.
Proof.
  intros Hx. destruct (remove_first x l) as [l'|] eqn:E; [by exists l'|].
  by apply remove_first_none in E.
Qed.

Lemma remove_first_nodup (x : string) (l l' : list string) :
  NoDup l -> remove_first x l = Some l' ->
  NoDup l' /\ (forall i, i ∈ l' <-> i ∈ l /\ i <> x).
Proof.
  intros Hnd H. destruct (remove_first_some x l l' H) as (l1 & l2 & -> & ->).
  rewrite <- Permutation_middle in Hnd. apply NoDup_cons in Hnd as [Hx Hnd].
  split; [done|]. intros i. rewrite !elem_of_app, elem_of_cons. split.
  - intros Hi. split; [tauto|]. intros ->. apply Hx. rewrite elem_of_app. tauto.
  - tauto.
Qed.

Lemma accounting_init (I : list string) :
  NoDup I -> match_accounting I [] ([], [], I).
Proof.
  intros Hnd. split; [done|]. split; [|split].
  - intros i. simpl. rewrite elem_of_nil. tauto.
  - intros i H. simpl in H. by apply not_elem_of_nil in H.
  - intros f. simpl. rewrite !elem_of_nil. tauto.
Qed.

Lemma accounting_unmatched I F mp ua ui f :
  match_accounting I F (mp, ua, ui) -> match_accounting I (F ++ [f]) (mp, ua ++ [f], ui).
Proof.
  intros (Hnd & Hui & Hmp & Hseen). split; [done|]. split; [done|]. split; [done|].
  intros f'. rewrite !elem_of_app, list_elem_of_singleton, Hseen. tauto.
Qed.

Lemma accounting_matched I F mp ua ui f n :
  n ∈ I -> match_accounting I F (mp, ua, ui) ->
  match remove_first n ui with
  | Some ui' => match_accounting I (F ++ [f]) (mp ++ [(f, n)], ua, ui')
  | None => match_accounting I (F ++ [f]) (mp ++ [(f, n)], ua ++ [f], ui)
  end.
Proof.
  intros Hn (Hnd & Hui & Hmp & Hseen).
  assert (Hseen' : forall g, g ∈ F ++ [f] <-> g ∈ map fst (mp ++ [(f, n)]) \/ g ∈ ua ++ [f]).
  { intros g. rewrite map_app, !elem_of_app, list_elem_of_singleton, Hseen. simpl.
    rewrite list_elem_of_singleton. tauto. }
  assert (Hmp' : forall i, i ∈ map snd (mp ++ [(f, n)]) -> i ∈ I).
  { intros i. rewrite map_app, elem_of_app. simpl. rewrite list_elem_of_singleton.
    intros [Hi| ->]; [by apply Hmp|done]. }
  destruct (remove_first n ui) as [ui'|] eqn:Er.
  - destruct (remove_first_nodup n ui ui' Hnd Er) as [Hnd' Hui'].
    split; [done|]. split; [|split; [done|]].
    + intros i. rewrite Hui', Hui, map_app, elem_of_app. simpl.
      rewrite list_elem_of_singleton. tauto.
    + intros g. rewrite map_app, !elem_of_app, list_elem_of_singleton, Hseen. simpl.
      rewrite list_elem_of_singleton. tauto.
  - apply remove_first_none in Er.
    split; [done|]. split; [|split; [done|exact Hseen']].
    intros i. rewrite Hui, map_app, elem_of_app. simpl. rewrite list_elem_of_singleton.
    destruct (decide (i = n)) as [->|Hne].
    + split; [intros H; exfalso; apply Er, Hui, H|intros [_ H]; exfalso; apply H; by right].
    + tauto.
Qed.

Lemma match_step_json_accounting fmt read I F acc f :
  fmt = CocoSingle \/ fmt = Labelme \/ fmt = Hk ->
  match_accounting I F acc ->
  exists acc', match_step fmt read I acc f = Some acc' /\ match_accounting I (F ++ [f]) acc'.
Proof.
  intros Hfmt Hacc. destruct acc as [[mp ua] ui].
  pose proof (accounting_unmatched I F mp ua ui f Hacc) as Hu.
  unfold match_step.
  destruct Hfmt as [-> | [-> | ->]];
  (destruct (read f) as [data|]; [|eexists; split; [reflexivity|exact Hu]]);
  (destruct (resolve_json _ I f data) as [n|]; [|eexists; split; [reflexivity|exact Hu]]);
  (destruct (negb (String.eqb n "") && mem n I) eqn:Hc;
     [|eexists; split; [reflexivity|exact Hu]]);
  (apply andb_true_iff in Hc as [_ Hc]; apply mem_spec in Hc;
   pose proof (accounting_matched I F mp ua ui f n Hc Hacc) as Hm;
   destruct (remove_first n ui); (eexists; split; [reflexivity|exact Hm])).
Qed.

Lemma match_loop_json_accounting fmt read I F acc l :
  fmt = CocoSingle \/ fmt = Labelme \/ fmt = Hk ->
  match_accounting I F acc ->
  exists acc', match_loop fmt read I acc l = Some acc' /\ match_accounting I (F ++ l) acc'.
Proof.
  intros Hfmt. revert F acc. induction l as [|f l IH]; intros F acc Hacc; simpl.
  - exists acc. by rewrite app_nil_r.
  - destruct (match_step_json_accounting fmt read I F acc f Hfmt Hacc) as (acc' & -> & Hacc').
    destruct (IH (F ++ [f]) acc' Hacc') as (acc'' & Hl & Hacc'').
    exists acc''. split; [done|]. by rewrite <- app_assoc in Hacc''.
Qed.

Lemma image_files_of_nodup (l : list string) : NoDup l -> NoDup (image_files_of l).
Proof. intros H. unfold image_files_of. rewrite NoDup_ListNoDup in *. by apply List.NoDup_filter. Qed.

(** For the JSON formats [match_files] never fails, and it accounts for
    every file: an image file is unmatched exactly when no matched pair
    holds it (each unmatched image once), a matched image is an image
    file, and every [.json] file is in a matched pair or among the
    unmatched annotations, nothing else being there. *)
Theorem match_files_json_accounts_for_all (annotation_listing image_listing : list string)
    (fmt : format) (read : string -> option ann_json)
    (Hfmt : fmt = CocoSingle \/ fmt = Labelme \/ fmt = Hk)
    (Hnd : NoDup image_listing) :
  exists matched_pairs unmatched_annotations unmatched_images,
    match_files annotation_listing image_listing fmt read =
      Some (matched_pairs, unmatched_annotations, unmatched_images) /\
    NoDup unmatched_images /\
    (forall i, i ∈ unmatched_images <->
               i ∈ image_files_of image_listing /\ i ∉ map snd matched_pairs) /\
    (forall i, i ∈ map snd matched_pairs -> i ∈ image_files_of image_listing) /\
    (forall f, f ∈ annotation_files_of fmt annotation_listing <->
               f ∈ map fst matched_pairs \/ f ∈ unmatched_annotations).
Proof.
  unfold match_files.
  destruct (match_loop_json_accounting fmt read (image_files_of image_listing) []
              ([], [], image_files_of image_listing)
              (annotation_files_of fmt annotation_listing) Hfmt
              (accounting_init _ (image_files_of_nodup _ Hnd)))
    as ([[mp ua] ui] & Hl & Hacc).
  exists mp, ua, ui. split; [done|]. exact Hacc.
Qed.

Lemma match_files_json_accounts_for_all_witness :
  NoDup ["x.jpg"; "y.png"] /\
  exists matched_pairs unmatched_annotations unmatched_images,
    match_files ["a.json"; "b.json"; "c.txt"] ["x.jpg"; "y.png"] Labelme same_image_json =
      Some (matched_pairs, unmatched_annotations, unmatched_images) /\
    NoDup unmatched_images /\
    (forall i, i ∈ unmatched_images <->
               i ∈ image_files_of ["x.jpg"; "y.png"] /\ i ∉ map snd matched_pairs) /\
    (forall i, i ∈ map snd matched_pairs -> i ∈ image_files_of ["x.jpg"; "y.png"]) /\
    (forall f, f ∈ annotation_files_of Labelme ["a.json"; "b.json"; "c.txt"] <->
               f ∈ map fst matched_pairs \/ f ∈ unmatched_annotations).
Proof.
  assert (Hnd : NoDup ["x.jpg"; "y.png"]) by (apply NoDup_cons; split; [|apply NoDup_singleton];
                                            rewrite list_elem_of_singleton; discriminate).
  split; [exact Hnd|].
  apply (match_files_json_accounts_for_all ["a.json"; "b.json"; "c.txt"] ["x.jpg"; "y.png"]
           Labelme same_image_json); [right; left; reflexivity|exact Hnd].
Defined.

(** *** match_files for yolo and voc: at most one annotation per image *)

Lemma first_ext_match_some (I : list string) (b n : string) :
  first_ext_match I b = Some n ->
  n ∈ I /\ exists e, In e image_exts /\ n = (b ++ e)%string.
Proof.
  unfold first_ext_match. intros H. apply find_some in H as [Hin Hm].
  apply in_map_iff in Hin as [e [<- He]]. split; [by apply mem_spec|eauto].
Qed.

(** Two names followed by image extensions are equal only with equal roots. *)
Lemma app_image_ext_inj (b1 b2 e1 e2 : string) :
  In e1 image_exts -> In e2 image_exts -> (b1 ++ e1)%string = (b2 ++ e2)%string -> b1 = b2.
Proof.
  intros He1 He2 H. apply las_inj. apply (f_equal list_ascii_of_string) in H.
  rewrite !las_app in H. simpl in He1, He2.
  destruct He1 as [<-|[<-|[<-|[<-|[]]]]], He2 as [<-|[<-|[<-|[<-|[]]]]];
    first [by apply app_inv_tail in H
          | apply (f_equal (@rev ascii)) in H; rewrite !rev_app_distr in H;
            simpl in H; congruence].
Qed.

Lemma first_ext_match_inj (I : list string) (b1 b2 n : string) :
  first_ext_match I b1 = Some n -> first_ext_match I b2 = Some n -> b1 = b2.
Proof.
  intros H1 H2.
  destruct (first_ext_match_some I b1 n H1) as [_ (e1 & He1 & E1)].
  destruct (first_ext_match_some I b2 n H2) as [_ (e2 & He2 & E2)].
  apply (app_image_ext_inj b1 b2 e1 e2); congruence.
Qed.

Lemma elem_of_map_root (F : list string) (f : string) :
  f ∈ F -> (splitext f).1 ∈ map (fun g => (splitext g).1) F.
Proof.
  intros H. apply list_elem_of_In. apply (in_map (fun g => (splitext g).1)).
  by apply list_elem_of_In.
Qed.

Lemma match_step_txt_xml fmt read I F mp ua ui f :
  fmt = Yolo \/ fmt = Voc ->
  (splitext f).1 ∉ map (fun g => (splitext g).1) F ->
  match_accounting I F (mp, ua, ui) ->
  NoDup (map snd mp) ->
  (forall g, g ∈ map fst mp -> g ∉ ua) ->
  Forall (fun p => first_ext_match I (splitext p.1).1 = Some p.2) mp ->
  exists mp' ua' ui',
    match_step fmt read I (mp, ua, ui) f = Some (mp', ua', ui') /\
    match_accounting I (F ++ [f]) (mp', ua', ui') /\
    NoDup (map snd mp') /\
    (forall g, g ∈ map fst mp' -> g ∉ ua') /\
    Forall (fun p => first_ext_match I (splitext p.1).1 = Some p.2) mp'.
Proof.
  intros Hfmt Hb Hacc Hnd Hex Hall.
  pose proof Hacc as (Hndu & Hui & Hmp & Hseen).
  assert (HfF : f ∉ F) by (intros Hf; by apply Hb, elem_of_map_root).
  assert (Hfm : f ∉ map fst mp) by (intros Hf; apply HfF, Hseen; by left).
  assert (Hfu : f ∉ ua) by (intros Hf; apply HfF, Hseen; by right).
  assert (E : match_step fmt read I (mp, ua, ui) f =
    match first_ext_match I (splitext f).1 with
    | Some matched_img =>
      match remove_first matched_img ui with
      | Some ui' => Some (mp ++ [(f, matched_img)], ua, ui')
      | None => None
      end
    | None => Some (mp, ua ++ [f], ui)
    end) by (destruct Hfmt as [-> | ->]; reflexivity).
  rewrite E. destruct (first_ext_match I (splitext f).1) as [n|] eqn:Ef.
  - destruct (first_ext_match_some I _ n Ef) as [HnI _].
    assert (Hnm : n ∉ map snd mp).
    { intros Hn. apply list_elem_of_In, in_map_iff in Hn as [[g n'] [Hn' Hg]].
      simpl in Hn'. subst n'.
      assert (Hgn : first_ext_match I (splitext g).1 = Some n).
      { rewrite Forall_forall in Hall. apply (Hall (g, n)). by apply list_elem_of_In. }
      pose proof (first_ext_match_inj I _ _ n Hgn Ef) as Heq.
      apply Hb. rewrite <- Heq. apply elem_of_map_root, Hseen. left.
      apply list_elem_of_In, in_map_iff. exists (g, n). split; [done|exact Hg]. }
    assert (Hnu : n ∈ ui) by (apply Hui; split; done).
    destruct (remove_first_in n ui Hnu) as [ui' Hr].
    pose proof (accounting_matched I F mp ua ui f n HnI Hacc) as Hm. rewrite Hr in Hm.
    rewrite Hr. exists (mp ++ [(f, n)]), ua, ui'. split; [reflexivity|].
    split; [exact Hm|]. split; [|split].
    + rewrite map_app. simpl. apply NoDup_app. split; [done|split; [|apply NoDup_singleton]].
      intros x Hx. rewrite list_elem_of_singleton. intros ->. exact (Hnm Hx).
    + intros g. rewrite map_app, elem_of_app. simpl. rewrite list_elem_of_singleton.
      intros [Hg| ->]; [exact (Hex g Hg)|exact Hfu].
    + apply Forall_app. split; [done|]. apply Forall_singleton. exact Ef.
  - exists mp, (ua ++ [f]), ui. split; [reflexivity|].
    split; [by apply accounting_unmatched|]. split; [done|]. split; [|done].
    intros g Hg. rewrite elem_of_app, list_elem_of_singleton.
    intros [Hgu| ->]; [exact (Hex g Hg Hgu)|exact (Hfm Hg)].
Qed.

Lemma match_loop_txt_xml fmt read I F mp ua ui l :
  fmt = Yolo \/ fmt = Voc ->
  NoDup (map (fun g => (splitext g).1) (F ++ l)) ->
  match_accounting I F (mp, ua, ui) ->
  NoDup (map snd mp) ->
  (forall g, g ∈ map fst mp -> g ∉ ua) ->
  Forall (fun p => first_ext_match I (splitext p.1).1 = Some p.2) mp ->
  exists mp' ua' ui',
    match_loop fmt read I (mp, ua, ui) l = Some (mp', ua', ui') /\
    match_accounting I (F ++ l) (mp', ua', ui') /\
    NoDup (map snd mp') /\
    (forall g, g ∈ map fst mp' -> g ∉ ua') /\
    Forall (fun p => first_ext_match I (splitext p.1).1 = Some p.2) mp'.
Proof.
  intros Hfmt. revert F mp ua ui.
  induction l as [|f l IH]; intros F mp ua ui Hroots Hacc Hnd Hex Hall; cbn [match_loop].
  - exists mp, ua, ui. rewrite app_nil_r. done.
  - assert (Hb : (splitext f).1 ∉ map (fun g => (splitext g).1) F).
    { rewrite map_app in Hroots. simpl in Hroots. apply NoDup_app in Hroots as (_ & Hd & _).
      intros Hin. apply (Hd _ Hin). by left. }
    destruct (match_step_txt_xml fmt read I F mp ua ui f Hfmt Hb Hacc Hnd Hex Hall)
      as (mp1 & ua1 & ui1 & -> & Hacc1 & Hnd1 & Hex1 & Hall1).
    replace (F ++ f :: l) with ((F ++ [f]) ++ l) in * by (rewrite <- app_assoc; reflexivity).
    by apply IH.
Qed.

(** For yolo and voc, when no two annotation files share a root name,
    [match_files] never fails and matches one to one: no image is in two
    matched pairs, an image file is unmatched exactly when it is in no
    matched pair, every annotation file is in exactly one of the matched
    pairs and the unmatched annotations, and each pair's image is the first
    of root + [.jpg], [.jpeg], [.png], [.bmp] that is an image file. *)
Theorem match_files_txt_xml_one_to_one (annotation_listing image_listing : list string)
    (fmt : format) (read : string -> option ann_json)
    (Hfmt : fmt = Yolo \/ fmt = Voc)
    (Hnd : NoDup image_listing)
    (Hroots : NoDup (map (fun g => (splitext g).1) (annotation_files_of fmt annotation_listing))) :
  exists matched_pairs unmatched_annotations unmatched_images,
    match_files annotation_listing image_listing fmt read =
      Some (matched_pairs, unmatched_annotations, unmatched_images) /\
    NoDup (map snd matched_pairs) /\
    NoDup unmatched_images /\
    (forall i, i ∈ unmatched_images <->
               i ∈ image_files_of image_listing /\ i ∉ map snd matched_pairs) /\
    (forall f, f ∈ annotation_files_of fmt annotation_listing <->
               f ∈ map fst matched_pairs \/ f ∈ unmatched_annotations) /\
    (forall f, f ∈ map fst matched_pairs -> f ∉ unmatched_annotations) /\
    Forall (fun p => first_ext_match (image_files_of image_listing) (splitext p.1).1 = Some p.2)
           matched_pairs.
Proof.
  unfold match_files.
  destruct (match_loop_txt_xml fmt read (image_files_of image_listing) [] [] []
              (image_files_of image_listing) (annotation_files_of fmt annotation_listing)
              Hfmt Hroots (accounting_init _ (image_files_of_nodup _ Hnd)))
    as (mp & ua & ui & Hl & (Hndu & Hui & _ & Hseen) & Hnd' & Hex & Hall);
    [apply NoDup_nil_2|intros g Hg; by apply not_elem_of_nil in Hg|apply Forall_nil_2|].
  exists mp, ua, ui. split; [done|]. split; [done|]. split; [done|]. split; [done|].
  split; [exact Hseen|]. split; done.
Qed.

Lemma match_files_txt_xml_one_to_one_witness :
  NoDup ["a.jpg"; "a.png"; "b.bmp"] /\
  NoDup (map (fun g => (splitext g).1)
             (annotation_files_of Yolo ["a.txt"; "b.txt"; "c.txt"; "classes.txt"])) /\
  exists matched_pairs unmatched_annotations unmatched_images,
    match_files ["a.txt"; "b.txt"; "c.txt"; "classes.txt"] ["a.jpg"; "a.png"; "b.bmp"]
                Yolo (fun _ => None) =
      Some (matched_pairs, unmatched_annotations, unmatched_images) /\
    NoDup (map snd matched_pairs) /\
    NoDup unmatched_images /\
    (forall i, i ∈ unmatched_images <->
               i ∈ image_files_of ["a.jpg"; "a.png"; "b.bmp"] /\ i ∉ map snd matched_pairs) /\
    (forall f, f ∈ annotation_files_of Yolo ["a.txt"; "b.txt"; "c.txt"; "classes.txt"] <->
               f ∈ map fst matched_pairs \/ f ∈ unmatched_annotations) /\
    (forall f, f ∈ map fst matched_pairs -> f ∉ unmatched_annotations) /\
    Forall (fun p => first_ext_match (image_files_of ["a.jpg"; "a.png"; "b.bmp"])
                                     (splitext p.1).1 = Some p.2)
           matched_pairs.
Proof.
  assert (Hnd : NoDup ["a.jpg"; "a.png"; "b.bmp"]) by (apply (bool_decide_unpack _); vm_compute; exact I).
  assert (Hr : NoDup (map (fun g => (splitext g).1)
             (annotation_files_of Yolo ["a.txt"; "b.txt"; "c.txt"; "classes.txt"])))
    by (apply (bool_decide_unpack _); vm_compute; exact I).
  split; [exact Hnd|]. split; [exact Hr|].
  apply (match_files_txt_xml_one_to_one _ _ Yolo (fun _ => None)); [left; reflexivity|exact Hnd|exact Hr].
Defined.

(** *** detect_format *)

Lemma filter_length_pos {A} (p : A -> bool) (l : list A) (x : A) :
  In x l -> p x = true -> (0 < length (List.filter p l))%nat.
Proof.
  intros Hx Hp. destruct (List.filter p l) eqn:E; simpl; [|lia].
  assert (Hin : In x (List.filter p l)) by (apply filter_In; done).
  by rewrite E in Hin.
Qed.

Lemma filter_length_zero {A} (p : A -> bool) (l : list A) :
  (forall x, In x l -> p x = false) -> length (List.filter p l) = 0%nat.
Proof.
  induction l as [|x l IH]; intros H; simpl; [done|].
  rewrite H by (left; done). apply IH. intros y Hy. apply H. by right.
Qed.

Lemma format_score_ext fs rl1 rx1 rj1 rl2 rx2 rj2 k (l : list string) :
  (forall f, In f l -> rl1 f = rl2 f /\ rx1 f = rx2 f /\ rj1 f = rj2 f) ->
  format_score fs rl1 rx1 rj1 k l = format_score fs rl2 rx2 rj2 k l.
Proof.
  intros H. unfold format_score. f_equal. apply filter_ext_in.
  intros f Hf. destruct (H f Hf) as (E1 & E2 & E3).
  unfold sample_file_score. by rewrite E1, E2, E3.
Qed.

Lemma in_sample_files (files : list string) (f : string) :
  In f (List.filter (fun f => negb (startswith_dot f)) (firstn 5 files)) ->
  f ∈ firstn 5 files.
Proof. intros H. apply filter_In in H as [H _]. by apply list_elem_of_In. Qed.

(** [detect_format] reads no file beyond the first five entries of the
    listing: readers that agree on those give the same answer. *)
Theorem detect_format_reads_first_five (float_of_string : string -> option float)
    (rl1 rl2 : string -> option string) (rx1 rx2 : string -> option (list string))
    (rj1 rj2 : string -> option json) (files : list string)
    (Hagree : forall f, f ∈ firstn 5 files -> rl1 f = rl2 f /\ rx1 f = rx2 f /\ rj1 f = rj2 f) :
  detect_format float_of_string rl1 rx1 rj1 (Some files) =
  detect_format float_of_string rl2 rx2 rj2 (Some files).
Proof.
  unfold detect_format. destruct files as [|x xs]; [done|].
  rewrite !(format_score_ext float_of_string rl1 rx1 rj1 rl2 rx2 rj2); [done|..];
    intros f Hf; apply Hagree, in_sample_files, Hf.
Qed.

Lemma detect_format_reads_first_five_witness :
  detect_format dec_float reads_yolo_line (fun _ => None) (fun _ => None)
    (Some ["1.txt"; "2.txt"; "3.txt"; "4.txt"; "5.txt"; "6.json"]) = Some Yolo /\
  detect_format dec_float reads_yolo_line (fun _ => None) (reads_labelme_for "6.json")
    (Some ["1.txt"; "2.txt"; "3.txt"; "4.txt"; "5.txt"; "6.json"]) = Some Yolo.
Proof.
  split; [vm_compute; reflexivity|].
  rewrite (detect_format_reads_first_five dec_float reads_yolo_line reads_yolo_line
                (fun _ => None) (fun _ => None) (reads_labelme_for "6.json") (fun _ => None)).
  - vm_compute; reflexivity.
  - intros f Hf. split; [done|]. split; [done|].
    unfold reads_labelme_for. destruct (String.eqb_spec f "6.json") as [->|]; [|done].
    exfalso. revert Hf. apply (bool_decide_unpack _). vm_compute. exact I.
Defined.

Lemma obj_lookup_no_key (key : string) (kvs : list (string * json)) acc :
  existsb (fun kv => String.eqb kv.1 key) kvs = false ->
  fold_left (fun acc kv => if String.eqb kv.1 key then Some kv.2 else acc) kvs acc = acc.
Proof.
  revert acc. induction kvs as [|[k v] kvs IH]; intros acc H; simpl in *; [done|].
  apply orb_false_iff in H as [-> H]. by apply IH.
Qed.

Lemma obj_lookup_has_key (key : string) (kvs : list (string * json)) (v : json) :
  obj_lookup key kvs = Some v -> py_in key (JObj kvs) = Some true.
Proof.
  unfold obj_lookup, py_in. intros H. f_equal.
  destruct (existsb _ kvs) eqn:E; [done|]. by rewrite obj_lookup_no_key in H.
Qed.

Lemma py_in_key (key : string) (kvs : list (string * json)) :
  key ∈ map fst kvs -> py_in key (JObj kvs) = Some true.
Proof.
  intros H. simpl. f_equal. apply existsb_exists.
  apply list_elem_of_In, in_map_iff in H as [[k v] [<- Hk]].
  exists (k, v). split; [done|]. apply String.eqb_refl.
Qed.

(** A sampled [.json] file that holds a labelme document (keys [shapes] and
    [imagePath], [shapes] a list) makes the answer labelme, whatever the
    other files hold: labelme is tested first. *)
Theorem detect_format_labelme_first (float_of_string : string -> option float)
    (read_first_line : string -> option string) (read_xml : string -> option (list string))
    (read_json : string -> option json) (files : list string) (f : string)
    (kvs : list (string * json)) (items : list json)
    (Hf : f ∈ firstn 5 files) (Hdot : startswith_dot f = false)
    (Hjson : endswith f ".json" = true)
    (Hread : read_json f = Some (JObj kvs))
    (Hpath : "imagePath" ∈ map fst kvs)
    (Hshapes : obj_lookup "shapes" kvs = Some (JArr items)) :
  detect_format float_of_string read_first_line read_xml read_json (Some files) = Some Labelme.
Proof.
  assert (Hs : sample_file_score float_of_string read_first_line read_xml read_json f
               = Some SLabelme).
  { unfold sample_file_score. destruct (endswith_json_not_txt_xml f Hjson) as [Ht Hx].
    rewrite Ht, Hx, Hjson, Hread. simpl andb. cbv iota.
    unfold detect_json. rewrite (obj_lookup_has_key _ _ _ Hshapes), (py_in_key _ _ Hpath).
    simpl py_getitem. rewrite Hshapes. reflexivity. }
  unfold detect_format. destruct files as [|x xs]; [by apply not_elem_of_nil in Hf|].
  cbv zeta.
  replace (0 <? format_score float_of_string read_first_line read_xml read_json SLabelme
                 (List.filter (fun f => negb (startswith_dot f)) (firstn 5 (x :: xs))))%nat
    with true; [reflexivity|].
  symmetry. apply Nat.ltb_lt. unfold format_score. apply (filter_length_pos _ _ f).
  - apply filter_In. split; [by apply list_elem_of_In|]. by rewrite Hdot.
  - by rewrite Hs.
Qed.

Lemma detect_format_labelme_first_witness :
  detect_format dec_float reads_yolo_line (fun _ => None) (reads_labelme_for "b.json")
    (Some ["a.txt"; "b.json"; "classes.txt"]) = Some Labelme.
Proof.
  apply (detect_format_labelme_first _ _ _ _ _ "b.json"
           [("shapes", JArr []); ("imagePath", JStr "x.jpg")] []).
  - apply (bool_decide_unpack _). vm_compute. exact I.
  - reflexivity.
  - vm_compute. reflexivity.
  - reflexivity.
  - apply (bool_decide_unpack _). vm_compute. exact I.
  - reflexivity.
Defined.

Lemma sample_file_score_json fs rl rx rj (f : string) (s : sample_score) :
  sample_file_score fs rl rx rj f = Some s -> s = SLabelme \/ s = SHk \/ s = SCoco ->
  endswith f ".json" = true.
Proof.
  intros H Hs. unfold sample_file_score in H.
  repeat case_match; simplify_eq; try done;
    destruct Hs as [Hs|[Hs|Hs]]; discriminate Hs.
Qed.

(** With a [classes.txt] and another [.txt] file in the listing, and no
    [.json] file among the first five entries, the answer is yolo, whatever
    the sampled files hold. *)
Theorem detect_format_classes_txt_yolo (float_of_string : string -> option float)
    (read_first_line : string -> option string) (read_xml : string -> option (list string))
    (read_json : string -> option json) (files : list string) (t : string)
    (Hclasses : "classes.txt" ∈ files) (Ht : t ∈ files)
    (Htxt : endswith t ".txt" = true) (Hne : t <> "classes.txt")
    (Hnojson : forall f, f ∈ firstn 5 files -> endswith f ".json" = false) :
  detect_format float_of_string read_first_line read_xml read_json (Some files) = Some Yolo.
Proof.
  assert (Hzero : forall k, k = SLabelme \/ k = SHk ->
    format_score float_of_string read_first_line read_xml read_json k
      (List.filter (fun f => negb (startswith_dot f)) (firstn 5 files)) = 0%nat).
  { intros k Hk. unfold format_score. apply filter_length_zero.
    intros f Hf. apply in_sample_files, Hnojson in Hf.
    destruct (sample_file_score _ _ _ _ f) as [s|] eqn:Es; [|done].
    destruct (sample_score_eqb s k) eqn:Ek; [|done].
    assert (s = k) by (destruct s, k; done). subst s.
    rewrite (sample_file_score_json _ _ _ _ f k Es) in Hf; [discriminate|].
    destruct Hk as [-> | ->]; tauto. }
  unfold detect_format. destruct files as [|x xs]; [by apply not_elem_of_nil in Hclasses|].
  cbv zeta. rewrite !Hzero by tauto.
  replace (mem "classes.txt" (x :: xs)) with true by (symmetry; by apply mem_spec).
  replace (0 <? length (List.filter (fun f => endswith f ".txt" && negb (String.eqb f "classes.txt"))
                          (x :: xs)))%nat with true.
  - rewrite !Nat.ltb_irrefl, andb_true_r, orb_true_r. reflexivity.
  - symmetry. apply Nat.ltb_lt. apply (filter_length_pos _ _ t).
    + by apply list_elem_of_In.
    + rewrite Htxt. simpl. apply negb_true_iff. by apply String.eqb_neq.
Qed.

Lemma detect_format_classes_txt_yolo_witness :
  detect_format dec_float (fun _ => None) (fun _ => None) (fun _ => None)
    (Some ["classes.txt"; "a.txt"]) = Some Yolo.
Proof.
  apply (detect_format_classes_txt_yolo _ _ _ _ _ "a.txt").
  - apply (bool_decide_unpack _). vm_compute. exact I.
  - apply (bool_decide_unpack _). vm_compute. exact I.
  - reflexivity.
  - discriminate.
  - intros f Hf. simpl in Hf. apply elem_of_cons in Hf as [-> | Hf]; [reflexivity|].
    apply list_elem_of_singleton in Hf as ->. reflexivity.
Defined.








(** *** Segmentation listings and cleanup *)

(** A name that [splitext] splits has a root whose last component is not
    dots only. *)
Lemma splitext_root_last_part (p : string) :
  (splitext p).2 <> "" -> last_part_has_non_dot (splitext p).1 = true.
Proof.
  unfold splitext.
  destruct (rfind "/"%char p <? rfind "."%char p) eqn:Hlt; [|done].
  destruct (existsb _ _) eqn:Hex; [|done]. simpl. intros _.
  apply Z.ltb_lt in Hlt.
  pose proof (rfind_bounds "/"%char p). pose proof (rfind_bounds "."%char p).
  assert (Hp := take_drop_string (Z.to_nat (rfind "."%char p)) p ltac:(lia)).
  assert (Hlb : String.length (substring 0 (Z.to_nat (rfind "."%char p)) p)
                = Z.to_nat (rfind "."%char p)).
  { rewrite las_length, substring_las, las_sola, drop_0, length_take, <- las_length. lia. }
  remember (substring 0 (Z.to_nat (rfind "."%char p)) p) as b eqn:Eb.
  remember (substring (Z.to_nat (rfind "."%char p))
                      (String.length p - Z.to_nat (rfind "."%char p)) p) as r eqn:Er.
  clear Eb Er.
  assert (Hsep : rfind "/"%char p = rfind "/"%char b).
  { assert (E : rfind "/"%char p =
                rfind_aux "/"%char r (0 + Z.of_nat (String.length b)) (rfind "/"%char b))
      by (rewrite <- Hp; unfold rfind; apply rfind_aux_app).
    destruct (rfind_aux_hit "/"%char r (0 + Z.of_nat (String.length b)) (rfind "/"%char b))
      as [E'|[Hge _]]; [by rewrite E, E'|lia]. }
  unfold last_part_has_non_dot. rewrite <- Hsep, Hlb, Z2Nat.id by lia.
  erewrite existsb_ext_in; [exact Hex|]. intros i Hi. simpl.
  apply in_map_iff in Hi as [k [<- Hk]]. apply in_seq in Hk.
  rewrite Hsep, <- Hp. rewrite char_at_app_l; [done|lia].
Qed.

Lemma splitext_seg_ext (b ext : string) :
  In ext seg_img_exts -> last_part_has_non_dot b = true ->
  splitext (b ++ ext) = (b, ext).
Proof.
  intros He Hb. simpl in He.
  destruct He as [<-|[<-|[<-|[<-|[<-|[<-|[]]]]]]];
    (rewrite splitext_app_ext, Hb; [reflexivity| |];
     apply (bool_decide_unpack _); vm_compute; exact I).
Qed.

Lemma find_matching_image_some (I : list string) (t i : string) :
  find_matching_image I t = Some i ->
  i ∈ I /\ exists ext, In ext seg_img_exts /\ i = ((splitext t).1 ++ ext)%string.
Proof.
  unfold find_matching_image. intros H. apply find_some in H as [Hin Hm].
  apply in_map_iff in Hin as [e [<- He]]. split; [by apply mem_spec|eauto].
Qed.

Lemma lower_seg_ext (ext : string) : In ext seg_img_exts -> lower ext = ext.
Proof. simpl. intros [<-|[<-|[<-|[<-|[<-|[<-|[]]]]]]]; reflexivity. Qed.

Lemma filter_negb_mem (l ds : list string) (x : string) :
  x ∈ List.filter (fun f => negb (mem f ds)) l <-> x ∈ l /\ x ∉ ds.
Proof.
  split.
  - intros H. apply list_elem_of_In, filter_In in H as [H1 H2].
    split; [by apply list_elem_of_In|]. intros Hx. apply mem_spec in Hx.
    rewrite Hx in H2. discriminate.
  - intros [H1 H2]. apply list_elem_of_In, filter_In. split; [by apply list_elem_of_In|].
    destruct (mem x ds) eqn:E; [|done]. apply mem_spec in E. contradiction.
Qed.

Lemma seg_fold_txt_no (I : list string) image_size txt_to_mask (l : list string) c tl x :
  x ∈ (fold_left (seg_txt_step I image_size txt_to_mask) l (c, tl)).2 ->
  x ∈ tl \/
  (x ∈ l /\ match find_matching_image I x with
            | None => True
            | Some i => image_size i = None
            end).
Proof.
  revert c tl. induction l as [|y l IH]; intros c tl Hx; cbn [fold_left] in *; [by left|].
  destruct (seg_txt_step I image_size txt_to_mask (c, tl) y) as [c' tl'] eqn:Es.
  destruct (IH c' tl' Hx) as [H|[H1 H2]].
  - unfold seg_txt_step in Es.
    destruct (find_matching_image I y) as [i|] eqn:Ef;
      [destruct (image_size i) as [[w h]|] eqn:Esz; [destruct (txt_to_mask y w h)|]|];
      injection Es as <- <-; try (left; done);
      (apply elem_of_app in H as [H|H];
       [by left
       |apply list_elem_of_singleton in H as ->; right;
        split; [apply elem_of_cons; by left|rewrite Ef; try exact Esz; done]]).
  - right. split; [apply elem_of_cons; by right|done].
Qed.

Lemma seg_step_count (I : list string) image_size txt_to_mask c tl y c' tl' :
  seg_txt_step I image_size txt_to_mask (c, tl) y = (c', tl') -> (c <= c')%nat.
Proof.
  unfold seg_txt_step. intros Es.
  destruct (find_matching_image I y) as [i|];
    [destruct (image_size i) as [[w h]|]; [destruct (txt_to_mask y w h)|]|];
    injection Es as <- <-; lia.
Qed.

Lemma seg_fold_count_mono (I : list string) image_size txt_to_mask (l : list string) c tl :
  (c <= (fold_left (seg_txt_step I image_size txt_to_mask) l (c, tl)).1)%nat.
Proof.
  revert c tl. induction l as [|y l IH]; intros c tl; cbn [fold_left]; [done|].
  destruct (seg_txt_step I image_size txt_to_mask (c, tl) y) as [c' tl'] eqn:Es.
  apply seg_step_count in Es. specialize (IH c' tl'). lia.
Qed.

Lemma seg_fold_count_pos (I : list string) image_size txt_to_mask (l : list string) c tl t i w h :
  t ∈ l -> find_matching_image I t = Some i -> image_size i = Some (w, h) ->
  txt_to_mask t w h = true ->
  (0 < (fold_left (seg_txt_step I image_size txt_to_mask) l (c, tl)).1)%nat.
Proof.
  intros Ht Hf Hs Hm. revert c tl. induction l as [|y l IH]; intros c tl.
  - by apply not_elem_of_nil in Ht.
  - apply elem_of_cons in Ht as [<-|Ht].
    + cbn [fold_left]. assert (Es : seg_txt_step I image_size txt_to_mask (c, tl) t = (S c, tl))
        by (unfold seg_txt_step; by rewrite Hf, Hs, Hm).
      rewrite Es. pose proof (seg_fold_count_mono I image_size txt_to_mask l (S c) tl). lia.
    + cbn [fold_left]. destruct (seg_txt_step I image_size txt_to_mask (c, tl) y). by apply IH.
Qed.

(** [_cleanup_unmatched_files] never deletes a matched image whose txt file
    has the exact extension [.txt]: such an image is not listed as having
    no txt. *)
Theorem segmentation_keeps_image_of_exact_txt (annotation_listing image_listing : list string)
    (image_size : string -> option (Z * Z)) (txt_to_mask : string -> Z -> Z -> bool)
    (t i : string)
    (Ht : t ∈ annotation_listing) (Hsuffix : (splitext t).2 = ".txt")
    (Hfind : find_matching_image image_listing t = Some i) :
  let '(successful_count, txt_no_image_list, image_no_txt_list) :=
    run_segmentation_lists annotation_listing image_listing image_size txt_to_mask in
  (i ∉ image_no_txt_list) /\
  i ∈ (cleanup_unmatched_files annotation_listing image_listing
                               txt_no_image_list image_no_txt_list).2.
Proof.
  destruct (find_matching_image_some _ _ _ Hfind) as [Hi (ext & Hext & Ei)].
  assert (Hlp : last_part_has_non_dot (splitext t).1 = true)
    by (apply splitext_root_last_part; by rewrite Hsuffix).
  assert (Hsi : splitext i = ((splitext t).1, ext)) by (rewrite Ei; by apply splitext_seg_ext).
  assert (Hno : i ∉ List.filter (fun img_name =>
      negb (mem ((splitext img_name).1 ++ ".txt")%string annotation_listing))
      (seg_image_files image_listing)).
  { rewrite list_elem_of_In, filter_In. intros [_ Hm]. rewrite Hsi in Hm. simpl in Hm.
    rewrite <- Hsuffix, (proj1 (splitext_root_ext t)) in Hm.
    apply negb_true_iff in Hm. rewrite (proj2 (mem_spec _ _) Ht) in Hm. discriminate. }
  unfold run_segmentation_lists.
  destruct (fold_left _ _ _) as [c tl]. split; [exact Hno|].
  simpl. apply filter_negb_mem. split; [exact Hi|exact Hno].
Qed.

Lemma segmentation_keeps_image_of_exact_txt_witness :
  let '(successful_count, txt_no_image_list, image_no_txt_list) :=
    run_segmentation_lists ["a.txt"; "b.txt"] ["a.png"; "b.jpg"; "c.jpg"]
      (fun _ => Some (10, 10)) (fun _ _ _ => true) in
  ("a.png" ∉ image_no_txt_list) /\
  "a.png" ∈ (cleanup_unmatched_files ["a.txt"; "b.txt"] ["a.png"; "b.jpg"; "c.jpg"]
                                     txt_no_image_list image_no_txt_list).2.
Proof.
  apply (segmentation_keeps_image_of_exact_txt _ _ _ _ "a.txt").
  - apply (bool_decide_unpack _). vm_compute. exact I.
  - vm_compute. reflexivity.
  - vm_compute. reflexivity.
Defined.

(** A txt file whose extension is [.txt] up to case but not exactly (such
    as [a.TXT]) is converted with its image, but the check for images
    without txt looks for root + [.txt] only: the image is listed as having
    no txt, and [_cleanup_unmatched_files] deletes it while keeping the txt
    file. *)
Theorem segmentation_cleanup_deletes_converted_image
    (annotation_listing image_listing : list string)
    (image_size : string -> option (Z * Z)) (txt_to_mask : string -> Z -> Z -> bool)
    (t i : string) (w h : Z)
    (Ht : t ∈ annotation_listing) (Htxt : endswith (lower t) ".txt" = true)
    (Hext : (splitext t).2 <> "")
    (Hfind : find_matching_image image_listing t = Some i)
    (Hsize : image_size i = Some (w, h)) (Hmask : txt_to_mask t w h = true)
    (Hno : ((splitext t).1 ++ ".txt")%string ∉ annotation_listing) :
  let '(successful_count, txt_no_image_list, image_no_txt_list) :=
    run_segmentation_lists annotation_listing image_listing image_size txt_to_mask in
  (0 < successful_count)%nat /\
  (t ∉ txt_no_image_list) /\
  i ∈ image_no_txt_list /\
  t ∈ (cleanup_unmatched_files annotation_listing image_listing
                               txt_no_image_list image_no_txt_list).1 /\
  i ∉ (cleanup_unmatched_files annotation_listing image_listing
                               txt_no_image_list image_no_txt_list).2.
Proof.
  destruct (find_matching_image_some _ _ _ Hfind) as [Hi (ext & Hex & Ei)].
  assert (Hlp := splitext_root_last_part t Hext).
  assert (Hsi : splitext i = ((splitext t).1, ext)) by (rewrite Ei; by apply splitext_seg_ext).
  assert (Htf : t ∈ seg_txt_files annotation_listing)
    by (apply list_elem_of_In, filter_In; split; [by apply list_elem_of_In|done]).
  assert (Hin : i ∈ List.filter (fun img_name =>
      negb (mem ((splitext img_name).1 ++ ".txt")%string annotation_listing))
      (seg_image_files image_listing)).
  { apply list_elem_of_In, filter_In. rewrite Hsi. cbn [fst snd]. split.
    - apply filter_In. split; [by apply list_elem_of_In|].
      rewrite Hsi. cbn [fst snd]. rewrite lower_seg_ext by done.
      apply mem_spec, list_elem_of_In, Hex.
    - apply negb_true_iff. destruct (mem _ _) eqn:E; [|done].
      apply mem_spec in E. contradiction. }
  unfold run_segmentation_lists.
  pose proof (seg_fold_count_pos image_listing image_size txt_to_mask
                (seg_txt_files annotation_listing) 0 [] t i w h Htf Hfind Hsize Hmask) as Hpos.
  assert (Hnot : t ∉ (fold_left (seg_txt_step image_listing image_size txt_to_mask)
                       (seg_txt_files annotation_listing) (0%nat, [])).2).
  { intros Hx. apply seg_fold_txt_no in Hx as [Hx|[_ Hx]].
    - by apply not_elem_of_nil in Hx.
    - rewrite Hfind in Hx. congruence. }
  destruct (fold_left _ _ _) as [c tl]. simpl in Hpos, Hnot.
  split; [exact Hpos|]. split; [exact Hnot|]. split; [exact Hin|]. split.
  - simpl. apply filter_negb_mem. done.
  - simpl. rewrite filter_negb_mem. intros [_ H]. contradiction.
Qed.

Lemma segmentation_cleanup_deletes_converted_image_witness :
  let '(successful_count, txt_no_image_list, image_no_txt_list) :=
    run_segmentation_lists ["a.TXT"] ["a.jpg"] (fun _ => Some (10, 10)) (fun _ _ _ => true) in
  (0 < successful_count)%nat /\
  ("a.TXT" ∉ txt_no_image_list) /\
  "a.jpg" ∈ image_no_txt_list /\
  "a.TXT" ∈ (cleanup_unmatched_files ["a.TXT"] ["a.jpg"]
                                     txt_no_image_list image_no_txt_list).1 /\
  "a.jpg" ∉ (cleanup_unmatched_files ["a.TXT"] ["a.jpg"]
                                     txt_no_image_list image_no_txt_list).2.
Proof.
  apply (segmentation_cleanup_deletes_converted_image _ _ _ _ "a.TXT" "a.jpg" 10 10).
  - apply list_elem_of_singleton. reflexivity.
  - vm_compute. reflexivity.
  - vm_compute. discriminate.
  - vm_compute. reflexivity.
  - reflexivity.
  - reflexivity.
  - apply (bool_decide_unpack _). vm_compute. exact I.
Defined.

(** *** Class names from classes.txt *)

Lemma enumerate_fold_lookup (l : list string) (s : Z) (m0 : gmap Z string) (k : Z) :
  fold_left (fun m (iname : Z * string) => <[iname.1 := iname.2]> m)
            (zip (zseq s (length l)) l) m0 !! k =
  if decide (s <= k < s + Z.of_nat (length l)) then l !! Z.to_nat (k - s) else m0 !! k.
Proof.
  revert s m0. induction l as [|x l IH]; intros s m0.
  - simpl. destruct (decide _); [lia|done].
  - cbn [length]. rewrite zseq_S. cbn [zip fold_left]. rewrite IH. simpl fst. simpl snd.
    destruct (decide (s + 1 <= k < s + 1 + Z.of_nat (length l))) as [Hk|Hk];
      destruct (decide (s <= k < s + Z.of_nat (S (length l)))) as [Hk'|Hk']; try lia.
    + replace (Z.to_nat (k - s)) with (S (Z.to_nat (k - (s + 1)))) by lia. done.
    + destruct (decide (k = s)) as [->|Hne].
      * rewrite lookup_insert_eq. by rewrite Z.sub_diag.
      * lia.
    + rewrite lookup_insert_ne by lia. done.
Qed.

(** Unless the answer at the prompt is [n] (after [lower] and [strip]),
    [_load_classes_file] maps id [k] to the [k]-th non-blank line of the
    file, stripped, counting from 0 (blank lines take no id), and to
    nothing for other ids; no name in the mapping is empty. *)
Theorem load_classes_file_ids_are_line_ranks (lines : list string) (confirm : string)
    (Hconfirm : String.eqb (py_strip (lower confirm)) "n" = false) :
  exists class_mapping,
    load_classes_file (Some lines) confirm = Some class_mapping /\
    (forall k, class_mapping !! k =
               if decide (0 <= k) then classes_of_lines lines !! Z.to_nat k else None) /\
    (forall k name, class_mapping !! k = Some name -> name <> "").
Proof.
  unfold load_classes_file. rewrite Hconfirm.
  eexists. split; [reflexivity|].
  assert (Hl : forall k, enumerate_map (classes_of_lines lines) !! k =
               if decide (0 <= k) then classes_of_lines lines !! Z.to_nat k else None).
  { intros k. unfold enumerate_map. rewrite enumerate_fold_lookup, Z.sub_0_r.
    destruct (decide (0 <= k)) as [Hk|Hk];
      destruct (decide (0 <= k < 0 + Z.of_nat (length (classes_of_lines lines)))); try lia.
    - done.
    - rewrite lookup_empty. symmetry. apply lookup_ge_None_2. lia.
    - by rewrite lookup_empty. }
  split; [exact Hl|].
  intros k name Hn. rewrite Hl in Hn. destruct (decide (0 <= k)); [|discriminate].
  apply list_elem_of_lookup_2, list_elem_of_In in Hn.
  unfold classes_of_lines in Hn. apply filter_In in Hn as [_ Hne].
  apply negb_true_iff, String.eqb_neq in Hne. exact Hne.
Qed.

Lemma load_classes_file_ids_are_line_ranks_witness :
  classes_of_lines classes_lines_sample = ["cat"; "dog"] /\
  exists class_mapping,
    load_classes_file (Some classes_lines_sample) "" = Some class_mapping /\
    (forall k, class_mapping !! k =
               if decide (0 <= k) then classes_of_lines classes_lines_sample !! Z.to_nat k
               else None) /\
    (forall k name, class_mapping !! k = Some name -> name <> "").
Proof.
  split; [vm_compute; reflexivity|].
  apply (load_classes_file_ids_are_line_ranks classes_lines_sample "").
  vm_compute. reflexivity.
Defined.

(** *** Expansion ratio *)

Lemma nan_prim_is_nan (r : float) :
  Prim2SF r = SpecFloat.S754_nan -> PrimFloat.is_nan r = true.
Proof. intros H. unfold PrimFloat.is_nan. by rewrite FloatAxioms.eqb_spec, H. Qed.

Lemma leb_zero_false (r : float) :
  PrimFloat.leb r 0%float = false ->
  PrimFloat.ltb 0%float r = true \/ Prim2SF r = SpecFloat.S754_nan.
Proof.
  rewrite FloatAxioms.leb_spec, FloatAxioms.ltb_spec.
  change (Prim2SF 0%float) with (SpecFloat.S754_zero false).
  destruct (Prim2SF r) as [[]|[]| |[] m e]; simpl; auto; discriminate.
Qed.

Lemma scaled_size_nan (v : pynum) (r : float) :
  Prim2SF r = SpecFloat.S754_nan ->
  scaled_size v r = inr ValueError \/ scaled_size v r = inr OverflowError.
Proof.
  intros Hr. unfold scaled_size, int_of_float.
  destruct v as [z|f]; [destruct (py_float_of_int z) as [f|e] eqn:E|];
    cbn [py_bind]; rewrite ?FloatAxioms.mul_spec, ?Hr.
  - left. destruct (Prim2SF f); reflexivity.
  - right. unfold py_float_of_int in E.
    destruct (float_of_Z_sf z); try discriminate. by injection E as <-.
  - left. destruct (Prim2SF f); reflexivity.
Qed.

Lemma expansion_nan (b : crop_box) (img_w img_h : Z) (r : float) :
  Prim2SF r = SpecFloat.S754_nan ->
  apply_expansion_and_bounds b img_w img_h r = inr ValueError \/
  apply_expansion_and_bounds b img_w img_h r = inr OverflowError.
Proof.
  intros Hr. destruct b as [[[x y] w] h]. unfold apply_expansion_and_bounds.
  replace (PrimFloat.eqb r 1%float) with false
    by (rewrite FloatAxioms.eqb_spec, Hr; reflexivity).
  by destruct (scaled_size_nan w r Hr) as [-> | ->]; [left|right].
Qed.

(** The ratio [get_crop_parameters] returns is never [<= 0], but the check
    lets [nan] through: the ratio is positive, or it is [nan] and then the
    expansion of every box raises ([ValueError] from [int(nan)], or
    [OverflowError] for an [int] size too large for a float), so each crop
    fails. *)
Theorem crop_ratio_positive_or_nan (float_of_string : string -> option float)
    (inputs : list string) (r : float)
    (Hr : get_crop_parameters float_of_string inputs = Some r) :
  PrimFloat.ltb 0%float r = true \/
  (PrimFloat.is_nan r = true /\
   forall b img_w img_h,
     apply_expansion_and_bounds b img_w img_h r = inr ValueError \/
     apply_expansion_and_bounds b img_w img_h r = inr OverflowError).
Proof.
  induction inputs as [|line rest IH]; simpl in Hr; [discriminate|].
  destruct (String.eqb (py_strip line) "").
  - injection Hr as <-. left. reflexivity.
  - destruct (float_of_string (py_strip line)) as [f|]; [|by apply IH].
    destruct (PrimFloat.leb f 0%float) eqn:Hf; [by apply IH|].
    injection Hr as <-. destruct (leb_zero_false f Hf) as [H|H]; [by left|].
    right. split; [by apply nan_prim_is_nan|]. intros. by apply expansion_nan.
Qed.

Lemma crop_ratio_positive_or_nan_witness :
  get_crop_parameters float_or_nan ["0"; "nan"] = Some PrimFloat.nan /\
  (PrimFloat.ltb 0%float PrimFloat.nan = true \/
   (PrimFloat.is_nan PrimFloat.nan = true /\
    forall b img_w img_h,
      apply_expansion_and_bounds b img_w img_h PrimFloat.nan = inr ValueError \/
      apply_expansion_and_bounds b img_w img_h PrimFloat.nan = inr OverflowError)).
Proof.
  assert (H : get_crop_parameters float_or_nan ["0"; "nan"] = Some PrimFloat.nan)
    by (vm_compute; reflexivity).
  split; [exact H|]. exact (crop_ratio_positive_or_nan float_or_nan ["0"; "nan"] _ H).
Defined.
